(** * Weather station: acquisition loops and offline cache

    A shallow embedding of the three programs held in
    [src/assets/service-worker.js]:

    - the offline-cache service worker (lines 1-20),
    - the satellite download loop, a bash script (lines 21-86),
    - the whole-sky camera loop, a bash script (lines 87-123).

    The shell scripts are modelled command by command.  Values that the
    shell keeps as text (the output of [date], the lines that flow through
    a pipeline) are strings here as well, and are parsed where the shell
    parses them, with the shell's rules. *)

From Stdlib Require Import ZArith Strings.String Strings.Ascii Strings.Byte List.
From stdpp Require Import gmap strings list sorting.

Open Scope Z_scope.

(** ** Text produced and consumed by the shell *)

Module Shell.

(** One decimal digit as a character. *)
Definition digit (n : nat) : ascii := ascii_of_nat (48 + n mod 10).

(** A zero-padded two-digit field, as [date] prints [%m], [%d], [%H],
    [%M] and [%S] (all of them below 100). *)
Definition two_digits (n : nat) : string :=
  String (digit (n / 10)) (String (digit n) EmptyString).

(** A four-digit year, as [date +%Y] prints the years 0..9999. *)
Definition four_digits (n : nat) : string :=
  String (digit (n / 1000)) (String (digit (n / 100))
    (String (digit (n / 10)) (String (digit n) EmptyString))).

(** The value of a digit character in a base, if it is one. *)
Definition digit_value (base : Z) (c : ascii) : option Z :=
  let v := Z.of_nat (nat_of_ascii c) - 48 in
  if (0 <=? v) && (v <? base) then Some v else None.

(** Digits read left to right in a base; [None] at the first character
    that is not a digit of that base. *)
Fixpoint read_digits (base : Z) (acc : Z) (s : string) : option Z :=
  match s with
  | EmptyString => Some acc
  | String c s' =>
      match digit_value base c with
      | Some v => read_digits base (acc * base + v) s'
      | None => None
      end
  end.

(** [test]'s integer operands ([-ge], [-lt], [-gt], [-eq]) are decimal,
    leading zeros allowed.  An empty or non-numeric operand makes [test]
    fail. *)
Definition test_integer (s : string) : option Z :=
  match s with
  | EmptyString => None
  | _ => read_digits 10 0 s
  end.

(** An integer constant inside [$(( ))]: a constant with a leading 0 is
    octal, so 08 and 09 are rejected by the shell (value too great for
    base); every other digit string is decimal.  A variable that holds
    the empty string evaluates to 0. *)
Definition arith_constant (s : string) : option Z :=
  match s with
  | EmptyString => Some 0
  | String "0" s' => read_digits 8 0 s'
  | _ => read_digits 10 0 s
  end.

(** Shell arithmetic is 64-bit signed and wraps around. *)
Definition wrap64 (z : Z) : Z := (z + 2 ^ 63) mod 2 ^ 64 - 2 ^ 63.

(** Decimal digits of a non-negative number, most significant first; the
    fuel bounds the number of digits. *)
Fixpoint decimal_go (fuel : nat) (n : Z) (acc : string) : string :=
  let acc' := String (digit (Z.to_nat (n mod 10))) acc in
  match fuel with
  | O => acc'
  | S fuel' => if n / 10 =? 0 then acc' else decimal_go fuel' (n / 10) acc'
  end.

Definition decimal (n : Z) : string := decimal_go 20 n EmptyString.

(** [printf "%02d"]: decimal, padded with zeros on the left to width 2
    (the sign counts in the width). *)
Definition printf_02d (z : Z) : string :=
  if z <? 0 then String "-" (decimal (- z))
  else if z <? 10 then String "0" (decimal z)
  else decimal z.

(** [grep]'s fixed pattern: does [s] start with [pat]? *)
Fixpoint starts_with (pat s : string) : bool :=
  match pat, s with
  | EmptyString, _ => true
  | String _ _, EmptyString => false
  | String a pat', String b s' =>
      if Ascii.eqb a b then starts_with pat' s' else false
  end.

(** Does [pat] occur somewhere in [s]? *)
Fixpoint occurs (pat s : string) : bool :=
  starts_with pat s ||
  match s with
  | EmptyString => false
  | String _ s' => occurs pat s'
  end.

(** The rest of [s] after the prefix [pat], if [s] starts with it. *)
Fixpoint strip_prefix (pat s : string) : option string :=
  match pat, s with
  | EmptyString, _ => Some s
  | String _ _, EmptyString => None
  | String a pat', String b s' =>
      if Ascii.eqb a b then strip_prefix pat' s' else None
  end.

(** Does [s] end with [pat]? *)
Fixpoint ends_with (pat s : string) : bool :=
  String.eqb pat s ||
  match s with
  | EmptyString => false
  | String _ s' => ends_with pat s'
  end.

End Shell.

(** ** Wall-clock readings *)

(** One reading of the clock, broken down as [date] does. *)
Record clock := Clock {
  year : nat; month : nat; day : nat;
  hour : nat; minute : nat; second : nat
}.

(** The readings a clock can show. *)
Definition valid_clock (c : clock) : Prop :=
  (year c < 100 * 100 ∧ 1 ≤ month c ≤ 12 ∧ 1 ≤ day c ≤ 31 ∧
   hour c < 24 ∧ minute c < 60 ∧ second c < 60)%nat.

Definition date_Y (c : clock) : string := Shell.four_digits (year c).
Definition date_m (c : clock) : string := Shell.two_digits (month c).
Definition date_d (c : clock) : string := Shell.two_digits (day c).
Definition date_H (c : clock) : string := Shell.two_digits (hour c).
Definition date_M (c : clock) : string := Shell.two_digits (minute c).
Definition date_S (c : clock) : string := Shell.two_digits (second c).

(** ** The satellite loop: timestamp of the image to ask for *)

Module Satellite.

Definition BASE_URL_PREFIX : string :=
  "https://imn-api.meteoplaza.com/v4/nowcast/tiles/satellite-europe/".
Definition TILE_INFO : string := "/7/47/70/51/75?outputtype=jpeg".
Definition OUTPUT_DIR : string :=
  "/home/dimitris/weather_station/satellite_latest".
Definition OUTPUT_FILE : string := "satellite_greece.jpg".
Definition OUTPUT_PATH : string :=
  Eval cbv in (OUTPUT_DIR +:+ "/" +:+ OUTPUT_FILE).

(** [INTERVAL_NUM=$((CURRENT_MINUTE / 65))]: the expansion fails when the
    minute does not read as a constant. *)
Definition INTERVAL_NUM (CURRENT_MINUTE : string) : option Z :=
  m ← Shell.arith_constant CURRENT_MINUTE;
  Some (Shell.wrap64 (Z.quot m 65)).

(** [TARGET_MINUTE_NUM=$((INTERVAL_NUM * 65))]. *)
Definition TARGET_MINUTE_NUM (CURRENT_MINUTE : string) : option Z :=
  i ← INTERVAL_NUM CURRENT_MINUTE;
  Some (Shell.wrap64 (i * 65)).

(** [TARGET_MINUTE=$(printf "%02d" $TARGET_MINUTE_NUM)]. *)
Definition TARGET_MINUTE (CURRENT_MINUTE : string) : option string :=
  Shell.printf_02d <$> TARGET_MINUTE_NUM CURRENT_MINUTE.

(** [LATEST_TIMESTAMP], in YYYYMMDDHHMM format. *)
Definition LATEST_TIMESTAMP (now : clock) : option string :=
  tm ← TARGET_MINUTE (date_M now);
  Some (date_Y now +:+ date_m now +:+ date_d now +:+ date_H now +:+ tm).

Definition CURRENT_IMAGE_URL (ts : string) : string :=
  BASE_URL_PREFIX +:+ ts +:+ TILE_INFO.

End Satellite.

(** ** What one pass of a loop does *)

(** The commands of a cycle that act outside the shell, in the order they
    run.  [echo] lines are left out: they touch no file. *)
Inductive event :=
  | Download (url out : string)   (* curl -f -L -s -o out url *)
  | Capture (out : string)        (* libcamera-still ... -o out *)
  | Remove (paths : list string)  (* rm -f path / xargs rm -- *)
  | Sleep (secs : nat).           (* sleep secs *)

(** The result of one pass through a [while true] body: what was run, the
    files afterwards, and whether the loop goes on to its next pass.  A
    failed arithmetic expansion abandons the whole [while] command, and
    with it the script. *)
Record cycle_result (S : Type) := CycleResult {
  events : list event;
  store : S;
  loop_alive : bool
}.
Arguments CycleResult {S} _ _ _.
Arguments events {S} _.
Arguments store {S} _.
Arguments loop_alive {S} _.

Definition is_download (e : event) : bool :=
  match e with Download _ _ => true | _ => false end.

Definition is_sleep (e : event) : bool :=
  match e with Sleep _ => true | _ => false end.

(** ** The satellite loop: download and check *)

(** What the network does to one [curl] run.  [received = None]: curl
    never opened the output file (an HTTP error under [-f], no route, no
    name resolution).  [received = Some chunks]: the body arrived in
    these chunks and curl wrote them to the output file, which it opened
    afresh; a complete transfer of an empty body is [Some []].  [exit_status] is
    curl's exit code, 0 for a complete transfer. *)
Record transfer := Transfer {
  exit_status : nat;
  received : option (list (list byte))
}.

(** The bytes a transfer left in the output file. *)
Definition payload (t : transfer) : list byte :=
  match received t with Some chunks => concat chunks | None => [] end.

Module SatelliteLoop.
Import Satellite.

(** Files by path. *)
Abbreviation files := (gmap string (list byte)).

(** [curl -o out]: the file is written in place. *)
Definition curl (out : string) (t : transfer) (σ : files) : files :=
  match received t with
  | None => σ
  | Some chunks => <[out := concat chunks]> σ
  end.

(** The successive contents of the file system while [curl -o out]
    runs.  curl opens the output file when the first data arrive (or at
    the end of a transfer without data), which empties it, and writes
    through the buffer of a C stream of [bufsize] bytes: after each chunk
    the file holds the whole buffers received so far, and the rest
    follows when curl closes the file. *)
Definition curl_states (bufsize : nat) (out : string) (t : transfer)
    (σ : files) : list files :=
  match received t with
  | None => [σ]
  | Some chunks =>
      σ :: ((λ k, let got := length (concat (take k chunks)) in
                  <[out := take (got / bufsize * bufsize) (concat chunks)]> σ)
              <$> seq 0 (S (length chunks)))
        ++ [<[out := concat chunks]> σ]
  end.

(** [[ -s path ]]: the file exists and is not empty. *)
Definition test_s (σ : files) (path : string) : bool :=
  match σ !! path with
  | Some (_ :: _) => true
  | _ => false
  end.

(** One pass of the loop body (lines 35-86). *)
Definition cycle (now : clock) (t : transfer) (σ : files)
    : cycle_result files :=
  match LATEST_TIMESTAMP now with
  | None => CycleResult [] σ false
  | Some ts =>
      let url := CURRENT_IMAGE_URL ts in
      let σ1 := curl OUTPUT_PATH t σ in
      if Nat.eqb (exit_status t) 0 then
        if test_s σ1 OUTPUT_PATH then
          CycleResult [Download url OUTPUT_PATH; Sleep 900] σ1 true
        else
          CycleResult
            [Download url OUTPUT_PATH; Remove [OUTPUT_PATH]; Sleep 900]
            (delete OUTPUT_PATH σ1) true
      else
        CycleResult [Download url OUTPUT_PATH; Sleep 900] σ1 true
  end.

(** Every content of the file system that a reader can come across from
    the start of a pass to its end. *)
Definition observable (bufsize : nat) (now : clock) (t : transfer)
    (σ : files) : list files :=
  match LATEST_TIMESTAMP now with
  | None => [σ]
  | Some _ => curl_states bufsize OUTPUT_PATH t σ ++ [store (cycle now t σ)]
  end.

End SatelliteLoop.

(** ** The camera loop *)

Module Camera.

Definition IMG_DIR : string :=
  "/home/dimitris/weather_station/whole_sky_camera".

(** The image files by path, each with its modification time (the key
    of [ls -t]).  Only regular files are held. *)
Abbreviation files := (gmap string Z).

(** [[ "$CURRENT_HOUR" -ge 3 ] && [ "$CURRENT_HOUR" -lt 18 ]]. *)
Definition window_open (CURRENT_HOUR : string) : bool :=
  match Shell.test_integer CURRENT_HOUR with
  | Some h => (3 <=? h) && (h <? 18)
  | None => false
  end.

(** [TIMESTAMP=$(date +"%d-%m-%Y_%H:%M:%S")], local time. *)
Definition TIMESTAMP (local : clock) : string :=
  date_d local +:+ "-" +:+ date_m local +:+ "-" +:+ date_Y local +:+ "_"
    +:+ date_H local +:+ ":" +:+ date_M local +:+ ":" +:+ date_S local.

Definition OUTPUT_FILE (local : clock) : string :=
  IMG_DIR +:+ "/" +:+ TIMESTAMP local +:+ ".jpg".

(** The glob ["$IMG_DIR"/*.jpg]: a file directly in the directory whose
    name ends in [.jpg] and does not start with a dot. *)
Definition glob_jpg (path : string) : bool :=
  match Shell.strip_prefix (IMG_DIR +:+ "/") path with
  | Some name =>
      negb (Shell.occurs "/" name) && negb (Shell.starts_with "." name)
        && Shell.ends_with ".jpg" name
  | None => false
  end.

(** The order of [ls -t]: newest first, equal times by name. *)
Definition newer_first (a b : string * Z) : Prop :=
  b.2 < a.2 ∨ (a.2 = b.2 ∧ String.le a.1 b.1).

#[global] Instance newer_first_dec a b : Decision (newer_first a b).
Proof. unfold newer_first. apply _. Defined.

(** [ls -t "$IMG_DIR"/*.jpg 2>/dev/null]: one path per line; no line
    when nothing matches. *)
Definition listing (σ : files) : list (string * Z) :=
  merge_sort newer_first
    (filter (λ e, glob_jpg e.1 = true) (map_to_list σ)).

Definition ls_t (σ : files) : list string := (listing σ).*1.

(** The pin predicate: [grep -v "/THUNDER"] drops the lines in which
    [/THUNDER] occurs. *)
Definition pinned (path : string) : bool := Shell.occurs "/THUNDER" path.

(** The lines that [ls] prints for one path: a newline in a name ends a
    line. *)
Fixpoint lines_of (s : string) : list string :=
  match s with
  | EmptyString => [EmptyString]
  | String c s' =>
      if Ascii.eqb c "010" then EmptyString :: lines_of s'
      else
        match lines_of s' with
        | l :: ls => String c l :: ls
        | [] => [String c EmptyString]
        end
  end.

(** The output of [ls -t ...], line by line. *)
Definition ls_lines (σ : files) : list string :=
  concat (lines_of <$> ls_t σ).

(** [$( )] drops the newlines at the end of the output, that is, the
    empty lines at its end. *)
Fixpoint command_substitution (lines : list string) : list string :=
  match lines with
  | [] => []
  | l :: rest =>
      match command_substitution rest with
      | [] => match l with EmptyString => [] | _ => [l] end
      | rest' => l :: rest'
      end
  end.

(** [NON_THUNDER_IMAGES=$(ls -t ... | grep -v "/THUNDER")]. *)
Definition NON_THUNDER_IMAGES (σ : files) : list string :=
  command_substitution (filter (λ l, pinned l = false) (ls_lines σ)).

(** [echo "$VAR"] of a variable that holds lines: the lines, or one empty
    line when the variable is empty. *)
Definition echo (lines : list string) : list string :=
  match lines with
  | [] => [EmptyString]
  | _ => lines
  end.

(** [IMAGE_COUNT=$(echo "$NON_THUNDER_IMAGES" | wc -l)]. *)
Definition IMAGE_COUNT (σ : files) : nat :=
  length (echo (NON_THUNDER_IMAGES σ)).

(** The text of some lines, each ended by a newline. *)
Definition text_of (lines : list string) : string :=
  foldr (λ l text, l +:+ String "010" text) EmptyString lines.

(** White space for [xargs]: tab, newline, vertical tab, form feed,
    carriage return and space; blanks are tab and space. *)
Definition isspace (c : ascii) : bool :=
  let n := nat_of_ascii c in ((9 <=? n) && (n <=? 13) || (n =? 32))%nat.

Definition isblank (c : ascii) : bool :=
  let n := nat_of_ascii c in ((n =? 9) || (n =? 32))%nat.

Definition is_empty (s : string) : bool :=
  match s with EmptyString => true | _ => false end.

(** [xargs] reads its input character by character. *)
Inductive xargs_state :=
  | SPACE                    (* between arguments *)
  | NORM                     (* inside an argument *)
  | QUOTE (quotc : ascii)    (* inside single or double quotes *)
  | BACKSLASH.               (* right after a backslash *)

(** The arguments that [xargs] (without options) makes of its input:
    blanks and newlines end an argument, white space before an argument
    is skipped, a backslash takes the next character as it is (a newline
    too), quotes take everything up to the same quote as it is, and an
    empty pair of quotes gives an empty argument.  A newline inside
    quotes is an error: xargs runs the command on the arguments it has
    and stops there, so the arguments up to that point are the result.
    [arg] is the argument read so far and [seen_arg] tells whether any
    part of an argument was seen since the last one was handed over. *)
Fixpoint read_words (state : xargs_state) (seen_arg : bool) (arg : string)
    (input : string) : list string :=
  match input with
  | EmptyString =>
      if is_empty arg then []
      else match state with QUOTE _ => [] | _ => [arg] end
  | String c rest =>
      let norm :=
        if Ascii.eqb c "010" then
          if is_empty arg then
            if seen_arg then EmptyString :: read_words SPACE false EmptyString rest
            else read_words SPACE false EmptyString rest
          else arg :: read_words SPACE false EmptyString rest
        else if isblank c then arg :: read_words SPACE false EmptyString rest
        else if Ascii.eqb c "\" then read_words BACKSLASH true arg rest
        else if Ascii.eqb c "'" || Ascii.eqb c "034" then
          read_words (QUOTE c) true arg rest
        else read_words NORM true (arg +:+ String c EmptyString) rest in
      match state with
      | SPACE => if isspace c then read_words SPACE seen_arg arg rest else norm
      | NORM => norm
      | QUOTE quotc =>
          if Ascii.eqb c "010" then []
          else if Ascii.eqb c quotc then read_words NORM true arg rest
          else read_words (QUOTE quotc) seen_arg
                 (arg +:+ String c EmptyString) rest
      | BACKSLASH =>
          read_words NORM seen_arg (arg +:+ String c EmptyString) rest
      end
  end.

(** [... | xargs rm --]: the arguments handed to [rm]. *)
Definition xargs (lines : list string) : list string :=
  read_words SPACE false EmptyString (text_of lines).

(** The file that [rm] is asked to remove by one of its arguments, for
    a script that runs in the directory [cwd] (an absolute path without a
    slash at its end): an absolute path stands for itself, a relative one
    is taken from [cwd], and the empty argument, [.] and [..] name no
    file that [rm] removes.  The files are held under their absolute
    paths, and only regular files are held, so an argument that names a
    directory or nothing at all removes nothing. *)
Definition rm_target (cwd : string) (arg : string) : option string :=
  if Shell.starts_with "/" arg then Some arg
  else if is_empty arg || String.eqb arg "." || String.eqb arg ".."
  then None
  else Some (cwd +:+ "/" +:+ arg).

(** [rm -- args]: every file named is removed; what cannot be removed is
    skipped. *)
Definition rm (cwd : string) (args : list string) (σ : files) : files :=
  foldr (λ arg σ', match rm_target cwd arg with
                   | Some path => delete path σ'
                   | None => σ'
                   end) σ args.

(** The arguments handed to [rm] by lines 116-119, with the count 30
    (and the 31 of [tail -n +31], which is that count plus one) as
    [maxCount]. *)
Definition evicted (maxCount : nat) (σ : files) : list string :=
  if (maxCount <? IMAGE_COUNT σ)%nat
  then xargs (drop maxCount (echo (NON_THUNDER_IMAGES σ)))
  else [].

(** The retention pass (lines 114-119), run in the directory [cwd]. *)
Definition enforceRetention (cwd : string) (maxCount : nat) (σ : files)
    : files :=
  rm cwd (evicted maxCount σ) σ.

(** The capture step (lines 101-112): [shot] is the modification time of
    the file that [libcamera-still] wrote, [None] when it wrote none. *)
Definition capture_step (utc local : clock) (shot : option Z) (σ : files)
    : list event * files :=
  if window_open (date_H utc) then
    ([Capture (OUTPUT_FILE local)],
     match shot with
     | Some t => <[OUTPUT_FILE local := t]> σ
     | None => σ
     end)
  else ([], σ).

(** One pass of the loop body (lines 96-123), for a script that runs in
    the directory [cwd]. *)
Definition cycle (cwd : string) (utc local : clock) (shot : option Z)
    (σ : files) : cycle_result files :=
  let '(ev, σ1) := capture_step utc local shot σ in
  CycleResult
    (ev ++ (if (30 <? IMAGE_COUNT σ1)%nat then [Remove (evicted 30 σ1)]
            else [])
        ++ [Sleep 300])
    (enforceRetention cwd 30 σ1) true.

End Camera.

(** ** The offline-cache service worker *)

Section ServiceWorker.

(** Requests and responses are those of the browser; a cache is keyed by
    request. *)
Context {request : Type} `{Countable request}.
Context {response : Type}.

Definition CACHE_NAME : string := "weather-station-cache-v1".

(** The caches of the origin, in the order they were created. *)
Abbreviation cache_storage := (list (string * gmap request response)).

(** The network: [fetch(request)] resolves to a response or rejects. *)
Variable network : request → option response.
(** [response.ok]: status in the range 200-299. *)
Variable ok : response → bool.

(** [caches.match(request)]: the first match over the caches in creation
    order, [None] (undefined) when no cache has one. *)
Fixpoint caches_match (caches : cache_storage) (req : request)
    : option response :=
  match caches with
  | [] => None
  | (_, c) :: rest =>
      match c !! req with
      | Some r => Some r
      | None => caches_match rest req
      end
  end.


(** The outcome of a handler: the response handed to the page ([None]
    for a rejected promise), the requests sent to the network, and the
    caches afterwards. *)
Record handled := Handled {
  answer : option response;
  contacted : list request;
  caches_after : cache_storage
}.

(** The [fetch] handler (lines 15-20):
    [caches.match(event.request).then(response => response || fetch(event.request))]. *)
Definition on_fetch (caches : cache_storage) (req : request) : handled :=
  match caches_match caches req with
  | Some r => Handled (Some r) [] caches
  | None => Handled (network req) [req] caches
  end.

(** [caches.open(name)]: the cache of that name, created empty at the
    end of the list when there is none. *)
Fixpoint caches_open (name : string) (caches : cache_storage)
    : cache_storage :=
  match caches with
  | [] => [(name, ∅)]
  | (n, c) :: rest =>
      if String.eqb n name then (n, c) :: rest
      else (n, c) :: caches_open name rest
  end.

(** Store entries in the cache of a name. *)
Fixpoint caches_put (name : string) (entries : list (request * response))
    (caches : cache_storage) : cache_storage :=
  match caches with
  | [] => []
  | (n, c) :: rest =>
      if String.eqb n name
      then (n, foldl (λ m e, <[e.1 := e.2]> m) c entries) :: rest
      else (n, c) :: caches_put name entries rest
  end.

(** [cache.addAll(urls)]: every request is fetched; the responses are
    stored only if every fetch resolved with an ok response. *)
Definition addAll_entries (urls : list request)
    : option (list (request * response)) :=
  mapM (λ u, r ← network u; if ok r then Some (u, r) else None) urls.

(** The [install] handler (lines 8-13), for the list [urlsToCache]. *)
Definition on_install (urlsToCache : list request)
    (caches : cache_storage) : cache_storage :=
  let opened := caches_open CACHE_NAME caches in
  match addAll_entries urlsToCache with
  | Some entries => caches_put CACHE_NAME entries opened
  | None => opened
  end.

End ServiceWorker.

(** The list [urlsToCache] of the service worker (lines 2-6). *)
Definition urlsToCache : list string := ["/"; "/assets/manifest.json"].

(** ** Sample inputs and the words of the specification *)

Definition clock_1007 : clock := Clock 2024 6 1 10 7 0.
Definition clock_1008 : clock := Clock 2024 6 1 10 8 0.
Definition clock_1022 : clock := Clock 2024 6 1 10 22 0.
(** A reading in the night, before the camera's window opens. *)
Definition clock_0207 : clock := Clock 2024 6 1 2 7 0.

(** What the comments of lines 44-49 describe: the starting minute of the
    quarter of an hour in progress (00, 15, 30, 45). *)
Definition quarter_minute (m : Z) : Z := Z.quot m 15 * 15.

(** Seconds from the instant an index names (target minute, second 0 of
    the hour of the reading) to the reading itself. *)
Definition index_age (now : clock) (target_minute : Z) : Z :=
  (Z.of_nat (minute now) - target_minute) * 60 + Z.of_nat (second now).

(** The listed files that are not pinned, with their times. *)
Definition unpinned_listing (σ : gmap string Z) : list (string * Z) :=
  filter (λ e, Camera.pinned e.1 = false) (Camera.listing σ).

(** Five images and two pinned images in the camera directory, with a
    hidden file, a file of another kind and files elsewhere. *)
Definition seven_images : gmap string Z :=
  list_to_map [
    ("/home/dimitris/weather_station/whole_sky_camera/a1.jpg", 10);
    ("/home/dimitris/weather_station/whole_sky_camera/a2.jpg", 20);
    ("/home/dimitris/weather_station/whole_sky_camera/a3.jpg", 30);
    ("/home/dimitris/weather_station/whole_sky_camera/a4.jpg", 40);
    ("/home/dimitris/weather_station/whole_sky_camera/a5.jpg", 50);
    ("/home/dimitris/weather_station/whole_sky_camera/THUNDER_1.jpg", 5);
    ("/home/dimitris/weather_station/whole_sky_camera/THUNDER_2.jpg", 15);
    ("/home/dimitris/weather_station/whole_sky_camera/.hidden.jpg", 1);
    ("/home/dimitris/weather_station/whole_sky_camera/notes.txt", 2);
    ("/home/dimitris/weather_station/satellite_latest/satellite_greece.jpg",
     3)].

(** The characters that neither break a line of the listing nor mean
    anything to [xargs]: no white space, no quote, no backslash. *)
Definition plain_char (c : ascii) : bool :=
  negb (Camera.isspace c) && negb (Ascii.eqb c "'")
    && negb (Ascii.eqb c "034") && negb (Ascii.eqb c "\").

Fixpoint plain_path (s : string) : bool :=
  match s with
  | EmptyString => true
  | String c s' => plain_char c && plain_path s'
  end.

(** The directory states in which every path matched by the glob is made
    of plain characters only. *)
Definition plain_names (σ : gmap string Z) : Prop :=
  Forall (λ p, plain_path p = true) (Camera.ls_t σ).

(** The unpinned images that are held, counted on the files themselves
    and not on a listing: the files matched by the glob in whose path
    [/THUNDER] does not occur. *)
Definition unpinned_images (σ : gmap string Z) : gmap string Z :=
  filter (λ e, Camera.glob_jpg e.1 = true ∧ Camera.pinned e.1 = false) σ.

(** What the retention pass comes to when the names are plain: the
    listed unpinned files after the first [maxCount] are deleted. *)
Definition prune (maxCount : nat) (σ : gmap string Z) : gmap string Z :=
  foldr delete σ (drop maxCount (unpinned_listing σ).*1).

(** A working directory for the camera script. *)
Definition home : string := "/home/dimitris".


(** Thirty images named img00.jpg to img29.jpg and an older one whose
    name holds a blank. *)
Definition thirty_one_images : gmap string Z :=
  list_to_map
    (("/home/dimitris/weather_station/whole_sky_camera/my photo.jpg", 0)
     :: ((λ n, (Camera.IMG_DIR +:+ "/img" +:+ Shell.two_digits n +:+ ".jpg",
                Z.of_nat n + 1)) <$> seq 0 30)).



(** A pass of the satellite loop whose download completes with an empty
    body: the timestamp was computed, curl exited with 0 and left the
    output file empty. *)
Definition zero_length_fetch (now : clock) (t : transfer) : Prop :=
  is_Some (Satellite.LATEST_TIMESTAMP now) ∧ exit_status t = 0%nat ∧
  ∃ chunks, received t = Some chunks ∧ concat chunks = [].

(** A stored snapshot of three bytes, and transfers: an empty body, and a
    body of two bytes that arrives in two chunks. *)
Definition snapshot_files : gmap string (list byte) :=
  {[ Satellite.OUTPUT_PATH := [x01; x02; x03] ]}.
Definition empty_transfer : transfer := Transfer 0 (Some []).
Definition two_chunk_transfer : transfer :=
  Transfer 0 (Some [[x0a]; [x0b]]).

(** The snapshot reading that the specification allows at the fixed path:
    no file, the previous content, or the complete new content. *)
Definition atomic_reading (t : transfer) (σ s : gmap string (list byte))
    : Prop :=
  s !! Satellite.OUTPUT_PATH = None ∨
  s !! Satellite.OUTPUT_PATH = σ !! Satellite.OUTPUT_PATH ∨
  s !! Satellite.OUTPUT_PATH = Some (payload t).

(** ** The push registration script (src/assets/icons/custom.js) *)

Module Push.

(** [s.repeat(k)]. *)
Fixpoint repeat_string (s : string) (k : nat) : string :=
  match k with
  | O => EmptyString
  | S k' => s +:+ repeat_string s k'
  end.

(** [s.replace(/a/g, b)] for single characters [a] and [b]. *)
Fixpoint replace_all (a b : ascii) (s : string) : string :=
  match s with
  | EmptyString => EmptyString
  | String c s' => String (if Ascii.eqb c a then b else c) (replace_all a b s')
  end.

(** ASCII whitespace, which [atob] skips: tab, line feed, form feed,
    carriage return, space. *)
Definition is_whitespace (c : ascii) : bool :=
  let n := nat_of_ascii c in
  (n =? 9)%nat || (n =? 10)%nat || (n =? 12)%nat || (n =? 13)%nat
    || (n =? 32)%nat.

(** The value of a character of the base64 alphabet: A-Z, a-z, 0-9, plus
    and slash. *)
Definition sextet (c : ascii) : option Z :=
  let n := Z.of_nat (nat_of_ascii c) in
  if (65 <=? n) && (n <=? 90) then Some (n - 65)
  else if (97 <=? n) && (n <=? 122) then Some (n - 97 + 26)
  else if (48 <=? n) && (n <=? 57) then Some (n - 48 + 52)
  else if n =? 43 then Some 62
  else if n =? 47 then Some 63
  else None.

(** When the length is a multiple of four, one or two equals signs at
    the end are dropped. *)
Definition strip_padding (data : list ascii) : list ascii :=
  if (length data mod 4 =? 0)%nat then
    match rev data with
    | last :: r =>
        if Ascii.eqb last "=" then
          match r with
          | before :: r' => if Ascii.eqb before "=" then rev r' else rev r
          | [] => rev r
          end
        else data
    | [] => data
    end
  else data.

(** Groups of four values of six bits give three bytes; a rest of three
    gives two bytes and a rest of two gives one, the bits left over being
    dropped. *)
Fixpoint decode_sextets (l : list Z) : list Z :=
  match l with
  | a :: b :: c :: d :: rest =>
      (a * 4 + b / 16) :: (b mod 16 * 16 + c / 4) :: (c mod 4 * 64 + d)
        :: decode_sextets rest
  | [a; b; c] => [a * 4 + b / 16; b mod 16 * 16 + c / 4]
  | [a; b] => [a * 4 + b / 16]
  | _ => []
  end.

(** [window.atob]: the character codes of the decoded string, or [None]
    where it throws (a length of 4k+1 or a character outside the
    alphabet). *)
Definition atob (s : string) : option (list Z) :=
  let data :=
    strip_padding
      (List.filter (λ c, negb (is_whitespace c)) (list_ascii_of_string s)) in
  if (length data mod 4 =? 1)%nat then None
  else decode_sextets <$> mapM sextet data.

(** [urlBase64ToUint8Array] (lines 3-12): the elements of the array
    returned, or [None] where [atob] throws.  An element of a [Uint8Array]
    holds the value stored in it modulo 256. *)
Definition urlBase64ToUint8Array (base64String : string) : option (list Z) :=
  let padding :=
    repeat_string "=" ((4 - String.length base64String mod 4) mod 4) in
  let base64 :=
    replace_all "_" "/" (replace_all "-" "+" (base64String +:+ padding)) in
  match atob base64 with
  | Some rawData => Some ((λ code, code mod 256) <$> rawData)
  | None => None
  end.

Definition VAPID_PUBLIC_KEY : string :=
  "BJNBtL_G3JAn73y9WbBCwJ-u4EbiguQ7L1yfz8-tK2V-lbSB_x-vWWDdQ-RKG2xRIxzuDAbMIp-MW0YynqzrCLI".

(** What the page and the browser are like when the script runs: which
    interfaces exist, and what each asynchronous call comes back with
    ([false] or [None] for a rejected promise). *)
Record browser := Browser {
  has_serviceWorker : bool;          (* "serviceWorker" in navigator *)
  has_Notification : bool;           (* "Notification" in window *)
  has_PushManager : bool;            (* "PushManager" in window *)
  register_resolves : bool;          (* navigator.serviceWorker.register *)
  permission : option string;        (* Notification.requestPermission() *)
  subscription : option string;      (* reg.pushManager.subscribe, as JSON *)
  post_status : option nat           (* fetch("/store_subscription"), status *)
}.

(** What the script does that the user or the server can see;
    [console.log] lines are left out. *)
Inductive action :=
  | Warn (msg : string)
  | Register (script : string)
  | RequestPermission
  | Alert (msg : string)
  | Subscribe (applicationServerKey : list Z)
  | Post (url body : string)
  | ConsoleError.

(** [registerAndSubscribePush] (lines 15-64). *)
Definition registerAndSubscribePush (b : browser) : list action :=
  if negb (has_serviceWorker b) then
    [Warn "Service workers not supported in this browser."]
  else if negb (has_Notification b) then
    [Warn "Notifications not supported in this browser."]
  else
    Register "/assets/sw.js" ::
    if negb (register_resolves b) then [ConsoleError]
    else
      RequestPermission ::
      match permission b with
      | None => [ConsoleError]
      | Some p =>
          if negb (String.eqb p "granted") then
            [Alert "Notifications not granted!"]
          else if negb (has_PushManager b) then
            [Warn "PushManager not supported."]
          else
            match urlBase64ToUint8Array VAPID_PUBLIC_KEY with
            | None => [ConsoleError]
            | Some key =>
                Subscribe key ::
                match subscription b with
                | None => [ConsoleError]
                | Some sub =>
                    Post "/store_subscription" sub ::
                    match post_status b with
                    | None => [ConsoleError]
                    | Some _ => [Alert "Subscribed to push notifications!"]
                    end
                end
            end
      end.

(** The characters of an URL-safe base64 text: A-Z, a-z, 0-9, minus and
    underscore. *)
Definition url_char (c : ascii) : bool :=
  let n := nat_of_ascii c in
  ((65 <=? n) && (n <=? 90) || (97 <=? n) && (n <=? 122)
   || (48 <=? n) && (n <=? 57) || (n =? 45) || (n =? 95))%nat.

(** What the two replacements of line 5 make of one character. *)
Definition standard_char (c : ascii) : ascii :=
  let c1 := if Ascii.eqb c "-" then "+"%char else c in
  if Ascii.eqb c1 "_" then "/"%char else c1.

Definition is_post (a : action) : bool :=
  match a with Post _ _ => true | _ => false end.

End Push.

(** ** The loops over many passes *)

(** The satellite loop ([while true], lines 35-86) over the clock readings
    and transfers of its successive passes.  It goes from one pass to the
    next as long as the pass does not abandon the loop. *)
Fixpoint satellite_run (passes : list (clock * transfer))
    (σ : gmap string (list byte)) : cycle_result (gmap string (list byte)) :=
  match passes with
  | [] => CycleResult [] σ true
  | (now, t) :: rest =>
      let r := SatelliteLoop.cycle now t σ in
      if loop_alive r then
        let r' := satellite_run rest (store r) in
        CycleResult (events r ++ events r') (store r') (loop_alive r')
      else r
  end.

(** The camera loop ([while true], lines 96-123) over the UTC and local
    clock readings and the captures of its successive passes. *)
Fixpoint camera_run (cwd : string) (passes : list (clock * clock * option Z))
    (σ : gmap string Z) : cycle_result (gmap string Z) :=
  match passes with
  | [] => CycleResult [] σ true
  | (utc, local, shot) :: rest =>
      let r := Camera.cycle cwd utc local shot σ in
      if loop_alive r then
        let r' := camera_run cwd rest (store r) in
        CycleResult (events r ++ events r') (store r') (loop_alive r')
      else r
  end.

(** * Properties *)

(** ** Reading back what [date] printed *)

Lemma test_integer_two_digits (n : nat) :
  (n < 60)%nat → Shell.test_integer (Shell.two_digits n) = Some (Z.of_nat n).
Proof.
  intros Hn. do 60 (destruct n as [|n]; [reflexivity|]). lia.
Qed.

(** Inside [$(( ))] the minutes 08 and 09 are no numbers; all others read
    as themselves. *)
Lemma arith_constant_two_digits (n : nat) :
  (n < 60)%nat →
  Shell.arith_constant (Shell.two_digits n) =
    if decide (n = 8%nat ∨ n = 9%nat) then None else Some (Z.of_nat n).
Proof.
  intros Hn. do 60 (destruct n as [|n]; [reflexivity|]). lia.
Qed.

(** ** The aligned index *)

(** With the divisor 65 the interval number is 0 for every minute of the
    hour: the target minute is always 00, when there is one. *)
Lemma TARGET_MINUTE_NUM_zero (now : clock) (tm : Z) :
  valid_clock now →
  Satellite.TARGET_MINUTE_NUM (date_M now) = Some tm → tm = 0.
Proof.
  intros (_ & _ & _ & _ & Hm & _). unfold date_M.
  destruct now as [y mo d h m s]; simpl in *.
  do 60 (destruct m as [|m]; [vm_compute; congruence|]). lia.
Qed.

(** C1 (the code at 10:22): the loop asks for index 202406011000, not for
    202406011015; its target minute is 0 where the quarter in progress
    starts at 15, and the index is 1320 seconds old, not less than 900.
    At 10:07 the index is 202406011000. *)
Theorem aligned_index_at_1022 :
  Satellite.LATEST_TIMESTAMP clock_1007 = Some "202406011000" ∧
  Satellite.LATEST_TIMESTAMP clock_1022 = Some "202406011000" ∧
  Satellite.LATEST_TIMESTAMP clock_1022 ≠ Some "202406011015" ∧
  Satellite.TARGET_MINUTE_NUM (date_M clock_1022) = Some 0 ∧
  quarter_minute (Z.of_nat (minute clock_1022)) = 15 ∧
  index_age clock_1022 0 = 1320 ∧ ¬ index_age clock_1022 0 < 900.
Proof.
  repeat split; try reflexivity.
  - vm_compute. congruence.
  - vm_compute. congruence.
Qed.

(** ** The window gate *)

(** The gate as a condition on the hour that [date] printed. *)
Lemma window_open_date_H (now : clock) :
  (hour now < 24)%nat →
  Camera.window_open (date_H now) = true ↔ (3 ≤ hour now < 18)%nat.
Proof.
  intros Hh. unfold Camera.window_open, date_H.
  rewrite test_integer_two_digits by lia.
  rewrite andb_true_iff, Z.leb_le, Z.ltb_lt. lia.
Qed.

(** C5: for every clock reading, the gate of the camera loop is open
    exactly when the UTC hour h satisfies 3 <= h < 18; it reads nothing but
    the hour; hours 2 and 18 are closed, hours 3 and 17 open. *)
Theorem window_gate_hours (now : clock) :
  valid_clock now →
  (Camera.window_open (date_H now) = true ↔ (3 ≤ hour now < 18)%nat) ∧
  (∀ other, hour other = hour now →
     Camera.window_open (date_H other) = Camera.window_open (date_H now)) ∧
  Camera.window_open (date_H (Clock 2024 6 1 2 59 59)) = false ∧
  Camera.window_open (date_H (Clock 2024 6 1 3 0 0)) = true ∧
  Camera.window_open (date_H (Clock 2024 6 1 17 59 59)) = true ∧
  Camera.window_open (date_H (Clock 2024 6 1 18 0 0)) = false.
Proof.
  intros (_ & _ & _ & Hh & _).
  split; [|split; [|repeat split; reflexivity]].
  - by apply window_open_date_H.
  - intros other Heq. unfold date_H. by rewrite Heq.
Qed.

Lemma window_gate_hours_witness :
  valid_clock clock_1007 ∧
  (Camera.window_open (date_H clock_1007) = true ↔
     (3 ≤ hour clock_1007 < 18)%nat).
Proof.
  assert (Hv : valid_clock clock_1007).
  { unfold valid_clock, clock_1007. simpl. lia. }
  split; [exact Hv | exact (proj1 (window_gate_hours clock_1007 Hv))].
Defined.

(** The capture runs exactly in the cycles whose gate is open. *)
Lemma capture_iff_window_open cwd utc local shot (σ : gmap string Z) :
  valid_clock utc →
  Capture (Camera.OUTPUT_FILE local)
    ∈ events (Camera.cycle cwd utc local shot σ)
  ↔ (3 ≤ hour utc < 18)%nat.
Proof.
  intros (_ & _ & _ & Hh & _). rewrite <-(window_open_date_H utc Hh).
  unfold Camera.cycle, Camera.capture_step.
  destruct (Camera.window_open (date_H utc)); simpl.
  - split; [done|]. intros _. left.
  - split; [|done]. intros Hin.
    apply elem_of_app in Hin as [Hin|Hin%list_elem_of_singleton]; [|done].
    case_match; [apply list_elem_of_singleton in Hin; done|].
    by apply elem_of_nil in Hin.
Qed.

(** ** Sleeping at the end of a cycle *)

(** The camera loop sleeps 300 seconds at the end of every pass, whatever
    the gate said and whatever the capture did. *)
Lemma camera_cycle_sleeps cwd utc local shot (σ : gmap string Z) :
  last (events (Camera.cycle cwd utc local shot σ)) = Some (Sleep 300) ∧
  loop_alive (Camera.cycle cwd utc local shot σ) = true.
Proof.
  unfold Camera.cycle. destruct (Camera.capture_step _ _ _ _) as [ev σ1].
  simpl. split; [|done]. by rewrite app_assoc, last_snoc.
Qed.

(** The satellite loop sleeps 900 seconds at the end of every pass that
    got its timestamp, whatever the download did. *)
Lemma satellite_cycle_sleeps now ts t (σ : gmap string (list byte)) :
  Satellite.LATEST_TIMESTAMP now = Some ts →
  last (events (SatelliteLoop.cycle now t σ)) = Some (Sleep 900) ∧
  loop_alive (SatelliteLoop.cycle now t σ) = true.
Proof.
  intros Hts. unfold SatelliteLoop.cycle. rewrite Hts.
  destruct (Nat.eqb _ _); [destruct (SatelliteLoop.test_s _ _)|]; done.
Qed.

(** The pass gets its timestamp at every minute but 08 and 09. *)
Lemma LATEST_TIMESTAMP_is_Some now :
  valid_clock now →
  is_Some (Satellite.LATEST_TIMESTAMP now) ↔
  minute now ≠ 8%nat ∧ minute now ≠ 9%nat.
Proof.
  intros (_ & _ & _ & _ & Hm & _).
  unfold Satellite.LATEST_TIMESTAMP, Satellite.TARGET_MINUTE,
    Satellite.TARGET_MINUTE_NUM, Satellite.INTERVAL_NUM, date_M.
  rewrite arith_constant_two_digits by done.
  case_decide; simpl.
  - split; [by intros [? ?]|lia].
  - split; [lia|eauto].
Qed.

(** C7 (the code at minute 08): a pass of the satellite loop that starts
    at 10:08 runs no command at all, does not sleep, and ends the loop;
    the files are as they were. *)
Theorem satellite_cycle_at_minute_08 t (σ : gmap string (list byte)) :
  events (SatelliteLoop.cycle clock_1008 t σ) = [] ∧
  last (events (SatelliteLoop.cycle clock_1008 t σ)) ≠ Some (Sleep 900) ∧
  loop_alive (SatelliteLoop.cycle clock_1008 t σ) = false ∧
  store (SatelliteLoop.cycle clock_1008 t σ) = σ.
Proof. repeat split. by vm_compute. Qed.

(** ** One download per cycle *)

(** A pass of the satellite loop that reaches its download runs curl
    exactly once, on the URL of its timestamp, whatever the transfer did
    (failure, empty payload or success), and then sleeps until the next
    pass. *)
Theorem one_download_per_cycle now t (σ : gmap string (list byte)) :
  loop_alive (SatelliteLoop.cycle now t σ) = true →
  ∃ ts, Satellite.LATEST_TIMESTAMP now = Some ts ∧
    List.filter is_download (events (SatelliteLoop.cycle now t σ)) =
      [Download (Satellite.CURRENT_IMAGE_URL ts) Satellite.OUTPUT_PATH] ∧
    last (events (SatelliteLoop.cycle now t σ)) = Some (Sleep 900).
Proof.
  unfold SatelliteLoop.cycle.
  destruct (Satellite.LATEST_TIMESTAMP now) as [ts|]; [|done].
  intros _. exists ts. split; [done|].
  destruct (Nat.eqb _ _); [destruct (SatelliteLoop.test_s _ _)|]; done.
Qed.

Lemma one_download_per_cycle_witness :
  ∃ ts, Satellite.LATEST_TIMESTAMP clock_1022 = Some ts ∧
    List.filter is_download
      (events (SatelliteLoop.cycle clock_1022 (Transfer 22 None) ∅)) =
      [Download (Satellite.CURRENT_IMAGE_URL ts) Satellite.OUTPUT_PATH] ∧
    last (events (SatelliteLoop.cycle clock_1022 (Transfer 22 None) ∅))
      = Some (Sleep 900).
Proof.
  apply (one_download_per_cycle clock_1022 (Transfer 22 None) ∅).
  reflexivity.
Defined.

(** C8 (the code at minute 08): a pass of the satellite loop that starts
    at 10:08 runs curl not once but never, and the loop ends there: none
    of the passes that were to follow runs a download either. *)
Theorem no_download_at_minute_08 t rest (σ : gmap string (list byte)) :
  List.filter is_download (events (SatelliteLoop.cycle clock_1008 t σ)) = [] ∧
  length (List.filter is_download
            (events (SatelliteLoop.cycle clock_1008 t σ))) ≠ 1%nat ∧
  events (satellite_run ((clock_1008, t) :: rest) σ) = [] ∧
  loop_alive (satellite_run ((clock_1008, t) :: rest) σ) = false.
Proof. repeat split. by vm_compute. Qed.

(** ** Empty downloads *)

Lemma clock_1007_zero_length : zero_length_fetch clock_1007 empty_transfer.
Proof. split; [by eexists|]. split; [done|]. by exists []. Qed.

(** C2, as stated, fails: with a snapshot stored and an empty body
    received at 10:07, the snapshot is gone after the pass. *)
Lemma empty_fetch_loses_snapshot :
  ¬ (∀ now t (σ : gmap string (list byte)),
       zero_length_fetch now t →
       store (SatelliteLoop.cycle now t σ) !! Satellite.OUTPUT_PATH
         = σ !! Satellite.OUTPUT_PATH).
Proof.
  intros Hclaim.
  specialize (Hclaim clock_1007 empty_transfer snapshot_files
                clock_1007_zero_length).
  vm_compute in Hclaim. discriminate.
Qed.

(** C2, amended: in every pass whose download completes with an empty
    body, curl has emptied the file at the fixed path, the pass removes
    that file, and afterwards the path holds no file, whether or not a
    snapshot was stored there; every other file is as it was. *)
Theorem empty_fetch_removes_target now t (σ : gmap string (list byte)) :
  zero_length_fetch now t →
  SatelliteLoop.curl Satellite.OUTPUT_PATH t σ !! Satellite.OUTPUT_PATH
    = Some [] ∧
  Remove [Satellite.OUTPUT_PATH] ∈ events (SatelliteLoop.cycle now t σ) ∧
  store (SatelliteLoop.cycle now t σ) = delete Satellite.OUTPUT_PATH σ ∧
  store (SatelliteLoop.cycle now t σ) !! Satellite.OUTPUT_PATH = None.
Proof.
  intros ([ts Hts] & Hexit & chunks & Hrec & Hempty).
  assert (Hcurl : SatelliteLoop.curl Satellite.OUTPUT_PATH t σ
                  = <[Satellite.OUTPUT_PATH := []]> σ).
  { unfold SatelliteLoop.curl. by rewrite Hrec, Hempty. }
  unfold SatelliteLoop.cycle. rewrite Hts, Hexit, Hcurl. simpl.
  unfold SatelliteLoop.test_s. rewrite lookup_insert_eq. simpl.
  rewrite delete_insert_eq, lookup_delete_eq.
  split; [done|]. split; [|done]. right; left.
Qed.

Lemma empty_fetch_removes_target_witness :
  store (SatelliteLoop.cycle clock_1007 empty_transfer snapshot_files)
    !! Satellite.OUTPUT_PATH = None.
Proof.
  apply (empty_fetch_removes_target clock_1007 empty_transfer snapshot_files).
  split; [by eexists|]. split; [reflexivity|]. by exists [].
Defined.

(** ** Writing the snapshot *)

(** While curl runs, no path but its output path changes, and the output
    path shows the previous state or a leading part of what was
    received. *)
Lemma curl_states_spec bufsize out t (σ s : gmap string (list byte)) :
  s ∈ SatelliteLoop.curl_states bufsize out t σ →
  (∀ p, p ≠ out → s !! p = σ !! p) ∧
  (s !! out = σ !! out ∨ ∃ n, s !! out = Some (take n (payload t))).
Proof.
  unfold SatelliteLoop.curl_states, payload.
  destruct (received t) as [chunks|].
  - intros [->|[Hin|Hin%list_elem_of_singleton]%elem_of_app]%elem_of_cons.
    + by auto.
    + apply list_elem_of_fmap in Hin as (k & -> & _). split.
      * intros p Hp. by rewrite lookup_insert_ne.
      * right. eexists. by rewrite lookup_insert_eq.
    + subst s. split.
      * intros p Hp. by rewrite lookup_insert_ne.
      * right. exists (length (concat chunks)).
        by rewrite lookup_insert_eq, firstn_all.
  - intros ->%list_elem_of_singleton. by auto.
Qed.

(** With a stream buffer of 4096 bytes, the emptied file is one of the
    states a reader can come across while the two chunks arrive. *)
Lemma emptied_file_observable :
  (<[Satellite.OUTPUT_PATH := []]> snapshot_files)
    ∈ SatelliteLoop.observable 4096 clock_1007 two_chunk_transfer
        snapshot_files.
Proof.
  unfold SatelliteLoop.observable.
  replace (Satellite.LATEST_TIMESTAMP clock_1007)
    with (Some "202406011000") by reflexivity.
  apply elem_of_app. left. unfold SatelliteLoop.curl_states. simpl received.
  apply elem_of_cons. right. apply elem_of_app. left.
  apply list_elem_of_fmap.
  exists 1%nat. split; [reflexivity|]. apply elem_of_seq. simpl. lia.
Qed.

(** C4, as stated, fails: once curl has opened its output file, and
    until its stream writes the two bytes out, the fixed path holds an
    empty file, which is neither the previous snapshot nor the new one. *)
Lemma partial_snapshot_observable :
  ¬ (∀ bufsize now t (σ s : gmap string (list byte)),
       s ∈ SatelliteLoop.observable bufsize now t σ → atomic_reading t σ s).
Proof.
  intros Hclaim.
  specialize (Hclaim 4096%nat clock_1007 two_chunk_transfer snapshot_files
                (<[Satellite.OUTPUT_PATH := []]> snapshot_files)).
  destruct Hclaim as [Hs|[Hs|Hs]].
  - exact emptied_file_observable.
  - rewrite lookup_insert_eq in Hs. discriminate.
  - unfold snapshot_files in Hs.
    rewrite lookup_insert_eq, lookup_singleton_eq in Hs. discriminate.
  - rewrite lookup_insert_eq in Hs. discriminate.
Qed.

(** C4, amended: the download is written in place at the fixed path.
    During a pass no other path (so no temporary file) is ever written,
    and a reader of the fixed path finds the state before the pass, no
    file, or a leading part of the new payload, as much of it as curl's
    stream has written out, which may be empty or incomplete. *)
Theorem snapshot_written_in_place bufsize now t
    (σ s : gmap string (list byte)) :
  s ∈ SatelliteLoop.observable bufsize now t σ →
  (∀ p, p ≠ Satellite.OUTPUT_PATH → s !! p = σ !! p) ∧
  (s !! Satellite.OUTPUT_PATH = σ !! Satellite.OUTPUT_PATH ∨
   s !! Satellite.OUTPUT_PATH = None ∨
   ∃ n, s !! Satellite.OUTPUT_PATH = Some (take n (payload t))).
Proof.
  unfold SatelliteLoop.observable.
  destruct (Satellite.LATEST_TIMESTAMP now) as [ts|] eqn:Hts.
  - intros [Hin|Hin%list_elem_of_singleton]%elem_of_app.
    + apply curl_states_spec in Hin as [Hother Hout]. split; [done|].
      destruct Hout as [?|?]; by auto.
    + subst s. unfold SatelliteLoop.cycle. rewrite Hts.
      assert (Hcurl : ∀ p, p ≠ Satellite.OUTPUT_PATH →
        SatelliteLoop.curl Satellite.OUTPUT_PATH t σ !! p = σ !! p).
      { intros p Hp. unfold SatelliteLoop.curl.
        destruct (received t); [by rewrite lookup_insert_ne|done]. }
      assert (Hout :
        SatelliteLoop.curl Satellite.OUTPUT_PATH t σ !! Satellite.OUTPUT_PATH
          = σ !! Satellite.OUTPUT_PATH ∨
        ∃ n, SatelliteLoop.curl Satellite.OUTPUT_PATH t σ
               !! Satellite.OUTPUT_PATH = Some (take n (payload t))).
      { unfold SatelliteLoop.curl, payload.
        destruct (received t) as [chunks|]; [|by left].
        right. exists (length (concat chunks)).
        by rewrite lookup_insert_eq, firstn_all. }
      destruct (Nat.eqb _ _); [destruct (SatelliteLoop.test_s _ _)|]; simpl.
      * split; [done|]. destruct Hout; by auto.
      * split; [|right; left; apply lookup_delete_eq].
        intros p Hp. rewrite lookup_delete_ne by done. by apply Hcurl.
      * split; [done|]. destruct Hout; by auto.
  - intros ->%list_elem_of_singleton. by auto.
Qed.

Lemma snapshot_written_in_place_witness :
  (<[Satellite.OUTPUT_PATH := []]> snapshot_files)
    ∈ SatelliteLoop.observable 4096 clock_1007 two_chunk_transfer
        snapshot_files
  ∧ ((<[Satellite.OUTPUT_PATH := []]> snapshot_files)
       !! Satellite.OUTPUT_PATH = snapshot_files !! Satellite.OUTPUT_PATH ∨
     (<[Satellite.OUTPUT_PATH := []]> snapshot_files)
       !! Satellite.OUTPUT_PATH = None ∨
     ∃ n, (<[Satellite.OUTPUT_PATH := []]> snapshot_files)
            !! Satellite.OUTPUT_PATH = Some (take n (payload two_chunk_transfer))).
Proof.
  assert (Hin : (<[Satellite.OUTPUT_PATH := []]> snapshot_files)
    ∈ SatelliteLoop.observable 4096 clock_1007 two_chunk_transfer
        snapshot_files).
  { unfold SatelliteLoop.observable.
    replace (Satellite.LATEST_TIMESTAMP clock_1007)
      with (Some "202406011000") by reflexivity.
    apply elem_of_app. left. unfold SatelliteLoop.curl_states.
    simpl received.
    apply elem_of_cons. right. apply elem_of_app. left.
    apply list_elem_of_fmap.
    exists 1%nat. split; [reflexivity|]. apply elem_of_seq. simpl. lia. }
  split; [exact Hin|].
  exact (proj2 (snapshot_written_in_place 4096 clock_1007 two_chunk_transfer
                  snapshot_files _ Hin)).
Defined.

(** ** Strings *)

Section Strings.

Lemma string_app_assoc (a b c : string) :
  (a +:+ b) +:+ c = a +:+ b +:+ c.
Proof.
  induction a as [|x a IH]; [done|].
  cbn [String.append]. change ((String x a +:+ b) +:+ c)
    with (String x ((a +:+ b) +:+ c)).
  change (String x a +:+ b +:+ c) with (String x (a +:+ b +:+ c)).
  by rewrite IH.
Qed.

Lemma string_app_empty (a : string) : a +:+ EmptyString = a.
Proof.
  induction a as [|x a IH]; [done|].
  change (String x a +:+ EmptyString) with (String x (a +:+ EmptyString)).
  by rewrite IH.
Qed.

Lemma strip_prefix_app pat s : Shell.strip_prefix pat (pat +:+ s) = Some s.
Proof.
  induction pat as [|c pat IH]; [by destruct s|].
  change (String c pat +:+ s) with (String c (pat +:+ s)).
  cbn [Shell.strip_prefix]. by rewrite Ascii.eqb_refl.
Qed.

Lemma strip_prefix_Some pat s r :
  Shell.strip_prefix pat s = Some r → s = pat +:+ r.
Proof.
  revert s. induction pat as [|c pat IH]; intros s.
  - destruct s; cbn [Shell.strip_prefix]; by intros [= <-].
  - destruct s as [|d s]; cbn [Shell.strip_prefix]; [done|].
    destruct (Ascii.eqb_spec c d) as [->|]; [|done].
    intros Hs%IH. change (String d pat +:+ r) with (String d (pat +:+ r)).
    by rewrite Hs.
Qed.

Lemma occurs_cons pat c s :
  Shell.occurs pat (String c s)
  = Shell.starts_with pat (String c s) || Shell.occurs pat s.
Proof. reflexivity. Qed.

Lemma occurs_skip pat c s :
  Shell.starts_with pat (String c s) = false →
  Shell.occurs pat (String c s) = Shell.occurs pat s.
Proof. intros Hc. by rewrite occurs_cons, Hc. Qed.

Lemma occurs_THUNDER_no_slash name :
  Shell.occurs "/" name = false → Shell.occurs "/THUNDER" name = false.
Proof.
  induction name as [|c name IH]; [done|]. cbn -[Ascii.eqb].
  destruct (Ascii.eqb "/" c); [discriminate|exact IH].
Qed.

Lemma occurs_char_cons c d s :
  Shell.occurs (String c EmptyString) (String d s)
  = Ascii.eqb c d || Shell.occurs (String c EmptyString) s.
Proof.
  rewrite occurs_cons. cbn [Shell.starts_with].
  by destruct (Ascii.eqb c d).
Qed.

Lemma occurs_char_app c s1 s2 :
  Shell.occurs (String c EmptyString) (s1 +:+ s2)
  = Shell.occurs (String c EmptyString) s1
    || Shell.occurs (String c EmptyString) s2.
Proof.
  induction s1 as [|d s1 IH].
  - change (EmptyString +:+ s2) with s2. by destruct s2.
  - change (String d s1 +:+ s2) with (String d (s1 +:+ s2)).
    by rewrite !occurs_char_cons, IH, orb_assoc.
Qed.

Lemma ends_with_app pat s : Shell.ends_with pat (s +:+ pat) = true.
Proof.
  induction s as [|c s IH].
  - change (EmptyString +:+ pat) with pat.
    destruct pat; cbn [Shell.ends_with]; by rewrite String.eqb_refl.
  - change (String c s +:+ pat) with (String c (s +:+ pat)).
    cbn [Shell.ends_with]. rewrite IH. apply orb_true_r.
Qed.

Lemma plain_path_app s1 s2 :
  plain_path (s1 +:+ s2) = plain_path s1 && plain_path s2.
Proof.
  induction s1 as [|c s1 IH]; [done|].
  change (String c s1 +:+ s2) with (String c (s1 +:+ s2)).
  cbn [plain_path]. by rewrite IH, andb_assoc.
Qed.

End Strings.

(** ** The listing *)

Section Listing.
Import Camera.




Lemma Forall_sublist_of {A} (P : A → Prop) (l k : list A) :
  l `sublist_of` k → Forall P k → Forall P l.
Proof.
  rewrite !Forall_forall. intros Hsub Hk x Hx. apply Hk.
  by eapply elem_of_sublist.
Qed.


Lemma filter_fmap_fst (P : string → Prop) `{∀ x, Decision (P x)}
    (l : list (string * Z)) :
  filter P (l.*1) = (filter (λ e, P e.1) l).*1.
Proof.
  induction l as [|e l IH]; [done|]. rewrite fmap_cons, !filter_cons. simpl.
  destruct (decide (P e.1)); simpl; by rewrite IH.
Qed.

Lemma listing_elem σ p t :
  (p, t) ∈ listing σ ↔ σ !! p = Some t ∧ glob_jpg p = true.
Proof.
  unfold listing. rewrite merge_sort_Permutation, list_elem_of_filter.
  rewrite elem_of_map_to_list. simpl. tauto.
Qed.



Lemma ls_t_elem σ p : p ∈ ls_t σ ↔ is_Some (σ !! p) ∧ glob_jpg p = true.
Proof.
  unfold ls_t. rewrite list_elem_of_fmap. split.
  - intros ([q t] & -> & Hin). apply listing_elem in Hin as [Hq Hg].
    simpl. eauto.
  - intros [[t Hp] Hg]. exists (p, t). split; [done|].
    by apply listing_elem.
Qed.

Lemma unpinned_sublist σ : unpinned_listing σ `sublist_of` listing σ.
Proof. apply sublist_filter. Qed.

Lemma unpinned_elem σ p t :
  (p, t) ∈ unpinned_listing σ ↔
  σ !! p = Some t ∧ glob_jpg p = true ∧ pinned p = false.
Proof.
  unfold unpinned_listing. rewrite list_elem_of_filter, listing_elem.
  simpl. tauto.
Qed.



Lemma unpinned_fst_elem σ p :
  p ∈ (unpinned_listing σ).*1 ↔
  is_Some (σ !! p) ∧ glob_jpg p = true ∧ pinned p = false.
Proof.
  rewrite list_elem_of_fmap. split.
  - intros ([q t] & -> & (? & ? & ?)%unpinned_elem). simpl. eauto.
  - intros ([t Hp] & Hg & Hpin). exists (p, t). split; [done|].
    by apply unpinned_elem.
Qed.



Lemma glob_jpg_absolute p :
  glob_jpg p = true → Shell.starts_with "/" p = true.
Proof.
  unfold glob_jpg.
  destruct (Shell.strip_prefix (IMG_DIR +:+ "/") p) as [name|] eqn:Hs;
    [|done].
  intros _. apply strip_prefix_Some in Hs. by rewrite Hs.
Qed.

Lemma glob_jpg_nonempty p : glob_jpg p = true → p ≠ EmptyString.
Proof. intros Hg ->. by vm_compute in Hg. Qed.

Lemma pinned_in_IMG_DIR name :
  Shell.occurs "/" name = false →
  pinned (IMG_DIR +:+ "/" +:+ name) = Shell.starts_with "THUNDER" name.
Proof.
  intros Hname. unfold pinned, IMG_DIR. cbv [String.append].
  repeat (rewrite occurs_skip by reflexivity).
  rewrite occurs_cons, (occurs_THUNDER_no_slash name Hname), orb_false_r.
  reflexivity.
Qed.

End Listing.

(** ** Plain names *)

Section PlainNames.
Import Camera.

Lemma isspace_false c :
  isspace c = false → Ascii.eqb c "010" = false ∧ isblank c = false.
Proof.
  unfold isspace, isblank. cbv zeta. intros Hs. split.
  - destruct (Ascii.eqb_spec c "010") as [->|]; [by vm_compute in Hs|done].
  - destruct (Nat.eqb_spec (nat_of_ascii c) 9) as [Heq|];
      [rewrite Heq in Hs; by vm_compute in Hs|].
    destruct (Nat.eqb_spec (nat_of_ascii c) 32) as [Heq|];
      [rewrite Heq in Hs; by vm_compute in Hs|done].
Qed.

Lemma plain_char_spec c :
  plain_char c = true →
  isspace c = false ∧ Ascii.eqb c "010" = false ∧ isblank c = false ∧
  Ascii.eqb c "\" = false ∧ Ascii.eqb c "'" = false ∧
  Ascii.eqb c "034" = false.
Proof.
  unfold plain_char. rewrite !andb_true_iff, !negb_true_iff.
  intros [[[Hs Hq] Hd] Hb].
  destruct (isspace_false c Hs) as [Hnl Hbl]. by repeat split.
Qed.


(** A plain path is printed on one line. *)
Lemma lines_of_plain p : plain_path p = true → lines_of p = [p].
Proof.
  induction p as [|c p IH]; [done|]. cbn [plain_path lines_of].
  intros [Hc Hp]%andb_true_iff.
  apply plain_char_spec in Hc as (_ & -> & _). by rewrite IH.
Qed.

Lemma ls_lines_plain σ : plain_names σ → ls_lines σ = ls_t σ.
Proof.
  unfold plain_names, ls_lines.
  induction 1 as [|p l Hp _ IH]; [done|].
  rewrite fmap_cons. cbn [concat]. by rewrite lines_of_plain, IH.
Qed.

Lemma command_substitution_id lines :
  Forall (λ l, l ≠ EmptyString) lines → command_substitution lines = lines.
Proof.
  induction 1 as [|l rest Hl _ IH]; [done|].
  cbn [command_substitution]. rewrite IH.
  destruct rest; [by destruct l|done].
Qed.

Lemma command_substitution_elem l lines :
  l ≠ EmptyString → l ∈ lines → l ∈ command_substitution lines.
Proof.
  intros Hl. induction lines as [|x rest IH]; [done|].
  intros [<-|Hin]%elem_of_cons; cbn [command_substitution].
  - destruct (command_substitution rest); [destruct l; [done|]|]; left.
  - specialize (IH Hin).
    destruct (command_substitution rest); [by apply elem_of_nil in IH|].
    by right.
Qed.

Lemma command_substitution_sublist lines :
  command_substitution lines `sublist_of` lines.
Proof.
  induction lines as [|x rest IH]; [done|]. cbn [command_substitution].
  destruct (command_substitution rest) eqn:Heq.
  - destruct x; [by apply sublist_cons|].
    apply sublist_skip, sublist_nil_l.
  - by apply sublist_skip.
Qed.

Lemma ls_t_nonempty σ : Forall (λ p, p ≠ EmptyString) (ls_t σ).
Proof.
  apply Forall_forall. intros p [_ Hg]%ls_t_elem.
  by apply glob_jpg_nonempty.
Qed.

(** With plain names, the variable holds the unpinned files of the
    listing, newest first. *)
Lemma NON_THUNDER_IMAGES_unpinned σ :
  plain_names σ → NON_THUNDER_IMAGES σ = (unpinned_listing σ).*1.
Proof.
  intros Hplain. unfold NON_THUNDER_IMAGES.
  rewrite (ls_lines_plain σ Hplain), command_substitution_id.
  - unfold ls_t. apply filter_fmap_fst.
  - eapply Forall_sublist_of; [apply sublist_filter|apply ls_t_nonempty].
Qed.

Lemma unpinned_plain σ :
  plain_names σ → Forall (λ p, plain_path p = true) (unpinned_listing σ).*1.
Proof.
  intros Hplain. eapply Forall_sublist_of; [|exact Hplain].
  apply fmap_sublist, unpinned_sublist.
Qed.

Lemma unpinned_absolute σ :
  Forall (λ p, Shell.starts_with "/" p = true) (unpinned_listing σ).*1.
Proof.
  apply Forall_forall. intros p (_ & Hg & _)%unpinned_fst_elem.
  by apply glob_jpg_absolute.
Qed.

Lemma unpinned_nonempty σ :
  Forall (λ p, p ≠ EmptyString) (unpinned_listing σ).*1.
Proof.
  apply Forall_forall. intros p (_ & Hg & _)%unpinned_fst_elem.
  by apply glob_jpg_nonempty.
Qed.

(** [xargs] on a line of plain characters. *)
Lemma read_words_SPACE_plain c seen arg rest :
  plain_char c = true →
  read_words SPACE seen arg (String c rest)
  = read_words NORM true (arg +:+ String c EmptyString) rest.
Proof.
  intros (Hs & Hnl & Hbl & Hbs & Hq & Hd)%plain_char_spec.
  cbn [read_words]. by rewrite Hs, Hnl, Hbl, Hbs, Hq, Hd.
Qed.

Lemma read_words_NORM_plain c seen arg rest :
  plain_char c = true →
  read_words NORM seen arg (String c rest)
  = read_words NORM true (arg +:+ String c EmptyString) rest.
Proof.
  intros (Hs & Hnl & Hbl & Hbs & Hq & Hd)%plain_char_spec.
  cbn [read_words]. by rewrite Hnl, Hbl, Hbs, Hq, Hd.
Qed.

Lemma read_words_NORM_newline seen arg rest :
  is_empty arg = false →
  read_words NORM seen arg (String "010" rest)
  = arg :: read_words SPACE false EmptyString rest.
Proof. intros Harg. cbn [read_words]. by rewrite Harg. Qed.

Lemma is_empty_app a b : is_empty a = false → is_empty (a +:+ b) = false.
Proof. by destruct a. Qed.

Lemma read_words_plain_rest l :
  plain_path l = true → ∀ seen arg text,
  is_empty arg = false →
  read_words NORM seen arg (l +:+ String "010" text)
  = (arg +:+ l) :: read_words SPACE false EmptyString text.
Proof.
  induction l as [|c l IH]; intros Hl seen arg text Harg.
  - change (EmptyString +:+ String "010" text) with (String "010" text).
    by rewrite read_words_NORM_newline, string_app_empty.
  - cbn [plain_path] in Hl. apply andb_true_iff in Hl as [Hc Hl].
    change (String c l +:+ String "010" text)
      with (String c (l +:+ String "010" text)).
    rewrite read_words_NORM_plain, IH by (done || by apply is_empty_app).
    by rewrite string_app_assoc.
Qed.

Lemma read_words_plain_line l text :
  plain_path l = true → l ≠ EmptyString →
  read_words SPACE false EmptyString (l +:+ String "010" text)
  = l :: read_words SPACE false EmptyString text.
Proof.
  destruct l as [|c l]; [done|]. cbn [plain_path].
  intros [Hc Hl]%andb_true_iff _.
  change (String c l +:+ String "010" text)
    with (String c (l +:+ String "010" text)).
  by rewrite read_words_SPACE_plain, read_words_plain_rest.
Qed.

(** Lines of plain characters go to [rm] one argument each, as they
    are. *)
Lemma xargs_plain lines :
  Forall (λ l, plain_path l = true) lines →
  Forall (λ l, l ≠ EmptyString) lines →
  xargs lines = lines.
Proof.
  unfold xargs. induction 1 as [|l lines Hl _ IH]; [done|].
  intros [Hne Hrest]%Forall_cons. cbn [text_of foldr].
  rewrite read_words_plain_line by done. f_equal. by apply IH.
Qed.

Lemma rm_absolute cwd args (σ : gmap string Z) :
  Forall (λ a, Shell.starts_with "/" a = true) args →
  rm cwd args σ = foldr delete σ args.
Proof.
  unfold rm. induction 1 as [|a args Ha _ IH]; [done|].
  cbn [foldr]. unfold rm_target at 1. by rewrite Ha, IH.
Qed.

(** With plain names, the arguments of [rm] are the listed unpinned
    paths after the first [maxCount]. *)
Lemma evicted_plain maxCount σ :
  plain_names σ →
  evicted maxCount σ = drop maxCount (unpinned_listing σ).*1.
Proof.
  intros Hplain. unfold evicted, IMAGE_COUNT.
  rewrite (NON_THUNDER_IMAGES_unpinned σ Hplain).
  pose proof (unpinned_plain σ Hplain) as Hp.
  pose proof (unpinned_nonempty σ) as Hne.
  destruct ((unpinned_listing σ).*1) as [|p l] eqn:Heq; cbn [echo].
  - rewrite drop_nil. destruct (_ <? _)%nat; [|done].
    destruct maxCount; [by vm_compute|]. cbn [drop]. by rewrite drop_nil.
  - destruct (Nat.ltb_spec maxCount (length (p :: l))).
    + apply xargs_plain; by apply Forall_drop.
    + by rewrite drop_ge.
Qed.

Lemma enforceRetention_plain cwd maxCount σ :
  plain_names σ → enforceRetention cwd maxCount σ = prune maxCount σ.
Proof.
  intros Hplain. unfold enforceRetention, prune.
  rewrite (evicted_plain _ _ Hplain). apply rm_absolute.
  apply Forall_drop, unpinned_absolute.
Qed.

Lemma prune_lookup maxCount (σ : gmap string Z) p :
  prune maxCount σ !! p =
    if decide (p ∈ drop maxCount (unpinned_listing σ).*1)
    then None else σ !! p.
Proof.
  unfold prune. case_decide.
  - by apply lookup_foldr_delete.
  - by apply lookup_foldr_delete_not_elem_of.
Qed.

Lemma prune_lookup_Some maxCount (σ : gmap string Z) p t :
  prune maxCount σ !! p = Some t → σ !! p = Some t.
Proof. rewrite prune_lookup. by case_decide. Qed.


(** Plain names stay plain when files are only removed. *)
Lemma plain_names_fewer (σ σ' : gmap string Z) :
  (∀ p, is_Some (σ' !! p) → is_Some (σ !! p)) →
  plain_names σ → plain_names σ'.
Proof.
  unfold plain_names. rewrite !Forall_forall.
  intros Hsub Hplain p [Hp Hg]%ls_t_elem. apply Hplain, ls_t_elem. auto.
Qed.

Lemma plain_names_prune maxCount σ :
  plain_names σ → plain_names (prune maxCount σ).
Proof.
  apply plain_names_fewer. intros p [t Hp]. exists t.
  by eapply prune_lookup_Some.
Qed.

Lemma plain_names_insert (σ : gmap string Z) p t :
  plain_path p = true → plain_names σ → plain_names (<[p := t]> σ).
Proof.
  unfold plain_names. rewrite !Forall_forall.
  intros Hp Hplain q [Hq Hg]%ls_t_elem.
  destruct (decide (q = p)) as [->|Hne]; [done|].
  rewrite lookup_insert_ne in Hq by done. apply Hplain, ls_t_elem. auto.
Qed.


End PlainNames.

(** ** The retention pass *)

Section Retention.
Import Camera.



(** C9 (the code on a name with a blank): a pass at 02:07 UTC, the gate
    closed, over thirty images and an older one named [my photo.jpg]
    runs the removal on the two halves of that path, and at its end all
    thirty-one unpinned images are still there. *)
Theorem closed_gate_pass_leaves_31 :
  window_open (date_H clock_0207) = false ∧
  size (unpinned_images thirty_one_images) = 31%nat ∧
  events (cycle home clock_0207 clock_0207 None thirty_one_images) =
    [Remove [IMG_DIR +:+ "/my"; "photo.jpg"]; Sleep 300] ∧
  size (unpinned_images
          (store (cycle home clock_0207 clock_0207 None thirty_one_images)))
    = 31%nat.
Proof. repeat split; by vm_compute. Qed.






Lemma plain_names_enforceRetention cwd maxCount σ :
  plain_names σ → plain_names (enforceRetention cwd maxCount σ).
Proof.
  intros Hplain. rewrite (enforceRetention_plain _ _ _ Hplain).
  by apply plain_names_prune.
Qed.





(** With 2 as [maxCount], five unpinned and two pinned images, the two
    newest unpinned images and both pinned images remain, four in all. *)
Example retention_pass_seven_images :
  ls_t (enforceRetention home 2 seven_images) =
    [IMG_DIR +:+ "/a5.jpg"; IMG_DIR +:+ "/a4.jpg";
     IMG_DIR +:+ "/THUNDER_2.jpg"; IMG_DIR +:+ "/THUNDER_1.jpg"] ∧
  evicted 2 seven_images =
    [IMG_DIR +:+ "/a3.jpg"; IMG_DIR +:+ "/a2.jpg"; IMG_DIR +:+ "/a1.jpg"].
Proof. split; by vm_compute. Qed.



End Retention.
(** ** The offline cache *)

Section ServiceWorkerProperties.
Context {request : Type} `{Countable request} {response : Type}.
Variable network : request → option response.
Variable ok : response → bool.




Lemma foldl_insert_is_Some (entries : list (request * response))
    (m : gmap request response) u :
  u ∈ entries.*1 ∨ is_Some (m !! u) →
  is_Some (foldl (λ m e, <[e.1 := e.2]> m) m entries !! u).
Proof.
  revert m. induction entries as [|[k v] entries IH]; intros m Hu.
  - destruct Hu as [Hin|?]; [|done]. by apply elem_of_nil in Hin.
  - cbn [foldl]. apply IH. simpl.
    destruct (decide (k = u)) as [->|Hne].
    + right. rewrite lookup_insert_eq. eauto.
    + destruct Hu as [Hin|Hm].
      * rewrite fmap_cons in Hin.
        apply elem_of_cons in Hin as [?|?]; [simpl in *; congruence|by left].
      * right. by rewrite lookup_insert_ne.
Qed.

Lemma foldl_insert_other (entries : list (request * response))
    (m : gmap request response) u :
  u ∉ entries.*1 →
  foldl (λ m e, <[e.1 := e.2]> m) m entries !! u = m !! u.
Proof.
  revert m. induction entries as [|[k v] entries IH]; intros m Hu; [done|].
  rewrite fmap_cons, not_elem_of_cons in Hu. destruct Hu as [Hne Hu].
  cbn [foldl]. rewrite IH by done. simpl in *. by rewrite lookup_insert_ne.
Qed.

Lemma addAll_entries_keys (fetched : request → option response) urls
    entries :
  addAll_entries fetched ok urls = Some entries → entries.*1 = urls.
Proof.
  unfold addAll_entries. intros Hall%mapM_Some_1.
  induction Hall as [|u e urls entries Hu _ IH]; [done|].
  rewrite fmap_cons, IH. f_equal.
  destruct (fetched u) as [r|]; [|done]. simpl in Hu.
  destruct (ok r); by simplify_eq.
Qed.

Lemma caches_match_put_open_is_Some name entries
    (caches : list (string * gmap request response)) u :
  u ∈ entries.*1 →
  is_Some (caches_match (caches_put name entries (caches_open name caches)) u).
Proof.
  intros Hu. induction caches as [|[n c] rest IH].
  - cbn [caches_open caches_put]. rewrite String.eqb_refl.
    cbn [caches_match].
    destruct (foldl_insert_is_Some entries ∅ u (or_introl Hu)) as [r ->].
    eauto.
  - cbn [caches_open]. destruct (String.eqb n name) eqn:Hn.
    + cbn [caches_put]. rewrite Hn. cbn [caches_match].
      destruct (foldl_insert_is_Some entries c u (or_introl Hu)) as [r ->].
      eauto.
    + cbn [caches_put]. rewrite Hn. cbn [caches_match].
      destruct (c !! u); eauto.
Qed.

Lemma caches_match_open name
    (caches : list (string * gmap request response)) u :
  caches_match (caches_open name caches) u = caches_match caches u.
Proof.
  induction caches as [|[n c] rest IH].
  - cbn [caches_open caches_match]. by rewrite lookup_empty.
  - cbn [caches_open]. destruct (String.eqb n name); [done|].
    cbn [caches_match]. by rewrite IH.
Qed.

Lemma caches_match_put_other name entries
    (caches : list (string * gmap request response)) u :
  u ∉ entries.*1 →
  caches_match (caches_put name entries caches) u = caches_match caches u.
Proof.
  intros Hu. induction caches as [|[n c] rest IH]; [done|].
  cbn [caches_put]. destruct (String.eqb n name); cbn [caches_match].
  - by rewrite foldl_insert_other.
  - by rewrite IH.
Qed.

Lemma on_install_match_other (fetched : request → option response)
    urlsToCache (caches : list (string * gmap request response)) req :
  req ∉ urlsToCache ∨ addAll_entries fetched ok urlsToCache = None →
  caches_match (on_install fetched ok urlsToCache caches) req
    = caches_match caches req.
Proof.
  intros Hreq. unfold on_install.
  destruct (addAll_entries fetched ok urlsToCache) as [entries|] eqn:Hall.
  - destruct Hreq as [Hreq|?]; [|done].
    rewrite caches_match_put_other, caches_match_open; [done|].
    by rewrite (addAll_entries_keys _ _ _ Hall).
  - apply caches_match_open.
Qed.

Lemma on_install_match_listed (fetched : request → option response)
    urlsToCache entries (caches : list (string * gmap request response)) u :
  addAll_entries fetched ok urlsToCache = Some entries →
  u ∈ urlsToCache →
  is_Some (caches_match (on_install fetched ok urlsToCache caches) u).
Proof.
  intros Hall Hu. unfold on_install. rewrite Hall.
  apply caches_match_put_open_is_Some.
  by rewrite (addAll_entries_keys _ _ _ Hall).
Qed.


End ServiceWorkerProperties.

(** The install handler stores the two responses under the cache name
    when both downloads are ok; a later fetch of one of them is answered
    without the network, and a fetch of anything else goes to it. *)
Example install_then_fetch :
  let online (u : string) := if decide (u = "/missing") then None
                             else Some (200%nat, u) in
  let offline (u : string) : option (nat * string) := None in
  let caches := on_install online (λ r, bool_decide (r.1 = 200%nat))
                  urlsToCache [] in
  caches = [(CACHE_NAME,
             {[ "/" := (200%nat, "/");
                "/assets/manifest.json" :=
                  (200%nat, "/assets/manifest.json") ]})] ∧
  answer (on_fetch offline caches "/") = Some (200%nat, "/") ∧
  contacted (on_fetch offline caches "/") = [] ∧
  contacted (on_fetch offline caches "/other") = ["/other"].
Proof. by vm_compute. Qed.


(** * Further properties of the scripts *)

(** ** Numbers printed by [date] and read back by the shell *)

(** A two-digit field of [date] read by [test] is the number it shows,
    zero-padded or not. *)
Theorem test_reads_two_digits (n : nat) :
  (n < 100)%nat →
  Shell.test_integer (Shell.two_digits n) = Some (Z.of_nat n).
Proof.
  intros Hn. do 100 (destruct n as [|n]; [reflexivity|]). lia.
Qed.

Lemma test_reads_two_digits_witness :
  Shell.test_integer (Shell.two_digits 8) = Some 8.
Proof. apply (test_reads_two_digits 8). lia. Defined.

(** The same field read inside [$(( ))] is the number it shows, except
    for 08 and 09, which are rejected as octal constants. *)
Theorem arithmetic_reads_two_digits (n : nat) :
  (n < 100)%nat →
  Shell.arith_constant (Shell.two_digits n) =
    if decide (n = 8%nat ∨ n = 9%nat) then None else Some (Z.of_nat n).
Proof.
  intros Hn. do 100 (destruct n as [|n]; [reflexivity|]). lia.
Qed.

Lemma arithmetic_reads_two_digits_witness :
  Shell.arith_constant (Shell.two_digits 9) = None ∧
  Shell.arith_constant (Shell.two_digits 10) = Some 10.
Proof.
  split.
  - apply (arithmetic_reads_two_digits 9). lia.
  - apply (arithmetic_reads_two_digits 10). lia.
Defined.

(** ** The timestamp and the URL of the satellite loop *)

Lemma LATEST_TIMESTAMP_value now :
  valid_clock now → minute now ≠ 8%nat → minute now ≠ 9%nat →
  Satellite.LATEST_TIMESTAMP now =
    Some (date_Y now +:+ date_m now +:+ date_d now +:+ date_H now +:+ "00").
Proof.
  intros (_ & _ & _ & _ & Hm & _) H8 H9.
  unfold Satellite.LATEST_TIMESTAMP, Satellite.TARGET_MINUTE,
    Satellite.TARGET_MINUTE_NUM, Satellite.INTERVAL_NUM, date_M.
  rewrite arith_constant_two_digits by done.
  rewrite decide_False by lia. simpl.
  rewrite Z.quot_small by lia. reflexivity.
Qed.

(** At every minute of the hour but 08 and 09 the timestamp is the year,
    month, day and hour of the reading followed by 00: twelve characters,
    whatever the minute. *)
Theorem LATEST_TIMESTAMP_on_the_hour now :
  valid_clock now → minute now ≠ 8%nat → minute now ≠ 9%nat →
  Satellite.LATEST_TIMESTAMP now =
    Some (date_Y now +:+ date_m now +:+ date_d now +:+ date_H now +:+ "00")
  ∧ (String.length <$> Satellite.LATEST_TIMESTAMP now) = Some 12%nat.
Proof.
  intros Hv H8 H9. rewrite (LATEST_TIMESTAMP_value now Hv H8 H9).
  split; reflexivity.
Qed.

Lemma LATEST_TIMESTAMP_on_the_hour_witness :
  Satellite.LATEST_TIMESTAMP (Clock 2024 12 31 23 59 59) =
    Some "202412312300" ∧
  (String.length <$> Satellite.LATEST_TIMESTAMP (Clock 2024 12 31 23 59 59))
    = Some 12%nat.
Proof.
  apply (LATEST_TIMESTAMP_on_the_hour (Clock 2024 12 31 23 59 59)).
  - unfold valid_clock. simpl. lia.
  - simpl. lia.
  - simpl. lia.
Defined.

(** Two passes in the same hour of the same day ask for the same URL. *)
Theorem same_hour_same_url a b :
  valid_clock a → valid_clock b →
  minute a ≠ 8%nat → minute a ≠ 9%nat →
  minute b ≠ 8%nat → minute b ≠ 9%nat →
  year a = year b → month a = month b → day a = day b → hour a = hour b →
  Satellite.CURRENT_IMAGE_URL <$> Satellite.LATEST_TIMESTAMP a =
  Satellite.CURRENT_IMAGE_URL <$> Satellite.LATEST_TIMESTAMP b.
Proof.
  intros Ha Hb Ha8 Ha9 Hb8 Hb9 Hy Hm Hd Hh.
  rewrite (LATEST_TIMESTAMP_value a Ha Ha8 Ha9).
  rewrite (LATEST_TIMESTAMP_value b Hb Hb8 Hb9).
  unfold date_Y, date_m, date_d, date_H. by rewrite Hy, Hm, Hd, Hh.
Qed.

Lemma same_hour_same_url_witness :
  Satellite.CURRENT_IMAGE_URL <$> Satellite.LATEST_TIMESTAMP clock_1007 =
  Satellite.CURRENT_IMAGE_URL <$> Satellite.LATEST_TIMESTAMP clock_1022.
Proof.
  apply (same_hour_same_url clock_1007 clock_1022);
    try reflexivity; unfold valid_clock; simpl; lia.
Defined.

(** ** What a pass of the satellite loop leaves behind *)

Lemma cycle_alive_iff now t (σ : gmap string (list byte)) :
  loop_alive (SatelliteLoop.cycle now t σ) = true ↔
  is_Some (Satellite.LATEST_TIMESTAMP now).
Proof.
  unfold SatelliteLoop.cycle.
  destruct (Satellite.LATEST_TIMESTAMP now) as [ts|].
  - destruct (Nat.eqb _ _); [destruct (SatelliteLoop.test_s _ _)|];
      simpl; split; eauto.
  - simpl. split; [done|]. by intros [? ?].
Qed.

(** A pass goes on to the next one exactly when its minute is not 08 or
    09; it then ends with the sleep of 900 seconds, and otherwise it
    does nothing at all. *)
Theorem satellite_pass_completes_iff now t (σ : gmap string (list byte)) :
  valid_clock now →
  (loop_alive (SatelliteLoop.cycle now t σ) = true ↔
     minute now ≠ 8%nat ∧ minute now ≠ 9%nat) ∧
  (if loop_alive (SatelliteLoop.cycle now t σ)
   then last (events (SatelliteLoop.cycle now t σ)) = Some (Sleep 900)
   else events (SatelliteLoop.cycle now t σ) = [] ∧
        store (SatelliteLoop.cycle now t σ) = σ).
Proof.
  intros Hv. split.
  - rewrite cycle_alive_iff. by apply LATEST_TIMESTAMP_is_Some.
  - unfold SatelliteLoop.cycle.
    destruct (Satellite.LATEST_TIMESTAMP now) as [ts|]; [|done].
    destruct (Nat.eqb _ _); [destruct (SatelliteLoop.test_s _ _)|]; done.
Qed.

Lemma satellite_pass_completes_iff_witness :
  loop_alive (SatelliteLoop.cycle (Clock 2024 6 1 10 9 30) empty_transfer ∅)
    = true ↔ (9 ≠ 8 ∧ 9 ≠ 9)%nat.
Proof.
  apply (satellite_pass_completes_iff (Clock 2024 6 1 10 9 30)
           empty_transfer ∅).
  unfold valid_clock. simpl. lia.
Defined.

(** A pass changes no file but the one at the fixed path. *)
Lemma cycle_other_paths now t (σ : gmap string (list byte)) p :
  p ≠ Satellite.OUTPUT_PATH →
  store (SatelliteLoop.cycle now t σ) !! p = σ !! p.
Proof.
  intros Hp. unfold SatelliteLoop.cycle.
  assert (Hcurl : SatelliteLoop.curl Satellite.OUTPUT_PATH t σ !! p = σ !! p).
  { unfold SatelliteLoop.curl.
    destruct (received t); [by rewrite lookup_insert_ne|done]. }
  destruct (Satellite.LATEST_TIMESTAMP now) as [ts|]; [|done].
  destruct (Nat.eqb _ _); [destruct (SatelliteLoop.test_s _ _)|]; simpl;
    [done| |done].
  by rewrite lookup_delete_ne.
Qed.

(** When curl fails, the script removes nothing: the fixed path holds what
    curl left there, which is the previous snapshot if curl never opened
    the file, and the part received if the transfer broke off. *)
Theorem failed_download_leaves_file now t (σ : gmap string (list byte)) :
  loop_alive (SatelliteLoop.cycle now t σ) = true →
  exit_status t ≠ 0%nat →
  store (SatelliteLoop.cycle now t σ) !! Satellite.OUTPUT_PATH =
    match received t with
    | Some chunks => Some (concat chunks)
    | None => σ !! Satellite.OUTPUT_PATH
    end ∧
  (∀ paths, Remove paths ∉ events (SatelliteLoop.cycle now t σ)).
Proof.
  intros [ts Hts]%cycle_alive_iff Hexit.
  unfold SatelliteLoop.cycle. rewrite Hts.
  destruct (Nat.eqb_spec (exit_status t) 0) as [?|_]; [done|]. simpl.
  split.
  - unfold SatelliteLoop.curl.
    destruct (received t); [by rewrite lookup_insert_eq|done].
  - intros paths Hin.
    apply elem_of_cons in Hin as [?|Hin]; [done|].
    by apply list_elem_of_singleton in Hin.
Qed.

Lemma failed_download_leaves_file_witness :
  store (SatelliteLoop.cycle clock_1007 (Transfer 22 None) snapshot_files)
    !! Satellite.OUTPUT_PATH =
    match received (Transfer 22 None) with
    | Some chunks => Some (concat chunks)
    | None => snapshot_files !! Satellite.OUTPUT_PATH
    end ∧
  (∀ paths, Remove paths ∉
     events (SatelliteLoop.cycle clock_1007 (Transfer 22 None)
               snapshot_files)).
Proof.
  apply (failed_download_leaves_file clock_1007 (Transfer 22 None)
           snapshot_files).
  - by vm_compute.
  - simpl. lia.
Defined.

(** A complete download of a body that is not empty replaces the file at
    the fixed path by that body and changes nothing else; nothing is
    removed. *)
Theorem successful_download_stored now t chunks
    (σ : gmap string (list byte)) :
  loop_alive (SatelliteLoop.cycle now t σ) = true →
  exit_status t = 0%nat → received t = Some chunks → concat chunks ≠ [] →
  store (SatelliteLoop.cycle now t σ)
    = <[Satellite.OUTPUT_PATH := concat chunks]> σ ∧
  ∃ ts, Satellite.LATEST_TIMESTAMP now = Some ts ∧
    events (SatelliteLoop.cycle now t σ) =
      [Download (Satellite.CURRENT_IMAGE_URL ts) Satellite.OUTPUT_PATH;
       Sleep 900].
Proof.
  intros [ts Hts]%cycle_alive_iff Hexit Hrec Hne.
  unfold SatelliteLoop.cycle, SatelliteLoop.curl, SatelliteLoop.test_s.
  rewrite Hts, Hexit, Hrec, lookup_insert_eq. simpl.
  destruct (concat chunks) as [|b bs]; [done|]. simpl.
  split; [done|]. by exists ts.
Qed.

Lemma successful_download_stored_witness :
  store (SatelliteLoop.cycle clock_1007 two_chunk_transfer snapshot_files)
    = <[Satellite.OUTPUT_PATH := concat [[x0a]; [x0b]]]> snapshot_files ∧
  ∃ ts, Satellite.LATEST_TIMESTAMP clock_1007 = Some ts ∧
    events (SatelliteLoop.cycle clock_1007 two_chunk_transfer snapshot_files)
    = [Download (Satellite.CURRENT_IMAGE_URL ts) Satellite.OUTPUT_PATH;
       Sleep 900].
Proof.
  apply (successful_download_stored clock_1007 two_chunk_transfer
           [[x0a]; [x0b]] snapshot_files).
  - by vm_compute.
  - reflexivity.
  - reflexivity.
  - simpl. discriminate.
Defined.

(** After a pass in which curl exited with 0, the fixed path never holds
    an empty file: it holds a file with content, or none. *)
Theorem no_empty_file_after_success now t (σ : gmap string (list byte)) :
  loop_alive (SatelliteLoop.cycle now t σ) = true →
  exit_status t = 0%nat →
  store (SatelliteLoop.cycle now t σ) !! Satellite.OUTPUT_PATH ≠ Some [].
Proof.
  intros [ts Hts]%cycle_alive_iff Hexit.
  unfold SatelliteLoop.cycle. rewrite Hts, Hexit. simpl.
  destruct (SatelliteLoop.test_s _ _) eqn:Htest; simpl.
  - unfold SatelliteLoop.test_s in Htest. intros Heq.
    by rewrite Heq in Htest.
  - by rewrite lookup_delete_eq.
Qed.

Lemma no_empty_file_after_success_witness :
  store (SatelliteLoop.cycle clock_1007 (Transfer 0 None)
           {[ Satellite.OUTPUT_PATH := [] ]})
    !! Satellite.OUTPUT_PATH ≠ Some [].
Proof.
  apply (no_empty_file_after_success clock_1007 (Transfer 0 None)
           {[ Satellite.OUTPUT_PATH := [] ]}).
  - by vm_compute.
  - reflexivity.
Defined.

(** ** The satellite loop over many passes *)

Lemma satellite_run_cons now t rest (σ : gmap string (list byte)) :
  satellite_run ((now, t) :: rest) σ =
    if loop_alive (SatelliteLoop.cycle now t σ) then
      CycleResult
        (events (SatelliteLoop.cycle now t σ)
           ++ events (satellite_run rest (store (SatelliteLoop.cycle now t σ))))
        (store (satellite_run rest (store (SatelliteLoop.cycle now t σ))))
        (loop_alive
           (satellite_run rest (store (SatelliteLoop.cycle now t σ))))
    else SatelliteLoop.cycle now t σ.
Proof. reflexivity. Qed.

(** However long the loop runs, the only file it ever changes is the one
    at the fixed path. *)
Theorem satellite_run_other_paths passes (σ : gmap string (list byte)) p :
  p ≠ Satellite.OUTPUT_PATH →
  store (satellite_run passes σ) !! p = σ !! p.
Proof.
  intros Hp. revert σ.
  induction passes as [|[now t] rest IH]; intros σ; [done|].
  rewrite satellite_run_cons.
  destruct (loop_alive (SatelliteLoop.cycle now t σ)); cbn [store].
  - rewrite IH. by apply cycle_other_paths.
  - by apply cycle_other_paths.
Qed.

Lemma satellite_run_other_paths_witness :
  store (satellite_run [(clock_1007, two_chunk_transfer);
                        (clock_1022, empty_transfer)]
           {[ "/etc/hostname" := [x61] ]}) !! "/etc/hostname"
  = ({[ "/etc/hostname" := [x61] ]} : gmap string (list byte))
      !! "/etc/hostname".
Proof.
  apply (satellite_run_other_paths
           [(clock_1007, two_chunk_transfer); (clock_1022, empty_transfer)]
           {[ "/etc/hostname" := [x61] ]} "/etc/hostname").
  discriminate.
Defined.


(** The loop ends at the first pass that finds no timestamp: what the
    passes before it did stands, and the passes that would have followed
    run nothing and change nothing. *)
Theorem satellite_run_stops before now t after
    (σ : gmap string (list byte)) :
  loop_alive (satellite_run before σ) = true →
  Satellite.LATEST_TIMESTAMP now = None →
  satellite_run (before ++ (now, t) :: after) σ =
    CycleResult (events (satellite_run before σ))
      (store (satellite_run before σ)) false.
Proof.
  intros Halive Hts. revert σ Halive.
  induction before as [|[n1 t1] before IH]; intros σ Halive.
  - rewrite app_nil_l, satellite_run_cons.
    unfold SatelliteLoop.cycle. by rewrite Hts.
  - rewrite <-app_comm_cons, !satellite_run_cons.
    rewrite satellite_run_cons in Halive.
    destruct (loop_alive (SatelliteLoop.cycle n1 t1 σ)) eqn:H1.
    + cbn [loop_alive] in Halive. rewrite (IH _ Halive).
      cbn [events store loop_alive]. done.
    + by rewrite H1 in Halive.
Qed.

Lemma satellite_run_stops_witness :
  satellite_run ([(clock_1007, empty_transfer)]
                   ++ (clock_1008, empty_transfer)
                   :: [(clock_1022, two_chunk_transfer)]) ∅ =
    CycleResult (events (satellite_run [(clock_1007, empty_transfer)] ∅))
      (store (satellite_run [(clock_1007, empty_transfer)] ∅)) false.
Proof.
  apply (satellite_run_stops [(clock_1007, empty_transfer)] clock_1008
           empty_transfer [(clock_1022, two_chunk_transfer)] ∅).
  - reflexivity.
  - reflexivity.
Defined.

Lemma cycle_events_shape now t (σ : gmap string (list byte)) :
  length (List.filter is_download (events (SatelliteLoop.cycle now t σ)))
  = length (List.filter is_sleep (events (SatelliteLoop.cycle now t σ))) ∧
  (length (List.filter is_sleep (events (SatelliteLoop.cycle now t σ)))
     ≤ 1)%nat.
Proof.
  unfold SatelliteLoop.cycle.
  destruct (Satellite.LATEST_TIMESTAMP now); [|simpl; lia].
  destruct (Nat.eqb _ _); [destruct (SatelliteLoop.test_s _ _)|];
    simpl; lia.
Qed.

(** Over any number of passes, the loop runs curl as many times as it
    sleeps and at most once per pass: no download is tried again before
    the next sleep. *)
Theorem satellite_run_downloads passes (σ : gmap string (list byte)) :
  length (List.filter is_download (events (satellite_run passes σ)))
  = length (List.filter is_sleep (events (satellite_run passes σ))) ∧
  (length (List.filter is_download (events (satellite_run passes σ)))
     ≤ length passes)%nat.
Proof.
  revert σ. induction passes as [|[now t] rest IH]; intros σ.
  - simpl. lia.
  - rewrite satellite_run_cons.
    pose proof (cycle_events_shape now t σ) as [Heq Hle].
    destruct (loop_alive (SatelliteLoop.cycle now t σ)).
    + cbn [events]. rewrite !List.filter_app, !length_app.
      specialize (IH (store (SatelliteLoop.cycle now t σ))).
      cbn [length]. lia.
    + cbn [length]. lia.
Qed.

(** ** Names of the camera loop *)

Section CameraNames.
Import Camera.

(** A digit is none of the characters that matter to the glob, to grep
    and to xargs. *)
Lemma digit_not_special n :
  Ascii.eqb "/" (Shell.digit n) = false ∧
  Ascii.eqb "." (Shell.digit n) = false ∧
  Ascii.eqb "T" (Shell.digit n) = false ∧
  plain_char (Shell.digit n) = true.
Proof.
  unfold Shell.digit.
  pose proof (Nat.mod_upper_bound n 10 ltac:(lia)) as Hk.
  generalize dependent (n mod 10)%nat. intros k Hk.
  do 10 (destruct k as [|k]; [by vm_compute|]). lia.
Qed.

Lemma two_digits_no_slash n :
  Shell.occurs "/" (Shell.two_digits n) = false.
Proof.
  unfold Shell.two_digits. rewrite !occurs_char_cons.
  rewrite (proj1 (digit_not_special n)),
    (proj1 (digit_not_special (n / 10))). reflexivity.
Qed.

Lemma four_digits_no_slash n :
  Shell.occurs "/" (Shell.four_digits n) = false.
Proof.
  unfold Shell.four_digits. rewrite !occurs_char_cons.
  rewrite (proj1 (digit_not_special n)),
    (proj1 (digit_not_special (n / 10))),
    (proj1 (digit_not_special (n / 100))),
    (proj1 (digit_not_special (n / 1000))). reflexivity.
Qed.

Lemma two_digits_plain n : plain_path (Shell.two_digits n) = true.
Proof.
  unfold Shell.two_digits. cbn [plain_path].
  by rewrite (proj2 (proj2 (proj2 (digit_not_special n)))),
    (proj2 (proj2 (proj2 (digit_not_special (n / 10))))).
Qed.

Lemma four_digits_plain n : plain_path (Shell.four_digits n) = true.
Proof.
  unfold Shell.four_digits. cbn [plain_path].
  by rewrite (proj2 (proj2 (proj2 (digit_not_special n)))),
    (proj2 (proj2 (proj2 (digit_not_special (n / 10))))),
    (proj2 (proj2 (proj2 (digit_not_special (n / 100))))),
    (proj2 (proj2 (proj2 (digit_not_special (n / 1000))))).
Qed.

Lemma TIMESTAMP_no_slash local :
  Shell.occurs "/" (TIMESTAMP local +:+ ".jpg") = false.
Proof.
  unfold TIMESTAMP, date_d, date_m, date_Y, date_H, date_M, date_S.
  rewrite !occurs_char_app, !two_digits_no_slash, four_digits_no_slash.
  reflexivity.
Qed.

Lemma TIMESTAMP_first local :
  ∃ rest, TIMESTAMP local +:+ ".jpg"
          = String (Shell.digit (day local / 10)) rest.
Proof. eexists. reflexivity. Qed.

Lemma OUTPUT_FILE_split local :
  OUTPUT_FILE local = (IMG_DIR +:+ "/") +:+ (TIMESTAMP local +:+ ".jpg").
Proof. unfold OUTPUT_FILE. by rewrite string_app_assoc. Qed.

Lemma OUTPUT_FILE_glob local : glob_jpg (OUTPUT_FILE local) = true.
Proof.
  unfold glob_jpg. rewrite OUTPUT_FILE_split, strip_prefix_app.
  rewrite TIMESTAMP_no_slash, ends_with_app.
  destruct (TIMESTAMP_first local) as [rest ->].
  cbn [Shell.starts_with].
  by rewrite (proj1 (proj2 (digit_not_special (day local / 10)))).
Qed.

Lemma OUTPUT_FILE_not_pinned local : pinned (OUTPUT_FILE local) = false.
Proof.
  unfold OUTPUT_FILE.
  rewrite (pinned_in_IMG_DIR _ (TIMESTAMP_no_slash local)).
  destruct (TIMESTAMP_first local) as [rest ->].
  cbn [Shell.starts_with].
  by rewrite (proj1 (proj2 (proj2 (digit_not_special (day local / 10))))).
Qed.

(** The path that a capture writes is made of plain characters. *)
Lemma OUTPUT_FILE_plain local : plain_path (OUTPUT_FILE local) = true.
Proof.
  unfold OUTPUT_FILE, TIMESTAMP, date_d, date_m, date_Y, date_H, date_M,
    date_S.
  rewrite !plain_path_app, !two_digits_plain, four_digits_plain.
  reflexivity.
Qed.

Lemma elem_of_concat_2 {A} (x : A) (l : list A) (ls : list (list A)) :
  x ∈ l → l ∈ ls → x ∈ concat ls.
Proof.
  intros Hx. induction ls as [|k ls IH]; [by intros ?%elem_of_nil|].
  cbn [concat]. rewrite elem_of_app.
  intros [<-|Hin]%elem_of_cons; [by left|right; by apply IH].
Qed.

(** Whatever the clock shows, the file that a capture writes is matched
    by the glob of the listing and is not pinned: it is one of the images
    that the retention pass counts. *)
Theorem captured_file_is_counted local t (σ : gmap string Z) :
  glob_jpg (OUTPUT_FILE local) = true ∧
  pinned (OUTPUT_FILE local) = false ∧
  OUTPUT_FILE local ∈ NON_THUNDER_IMAGES (<[OUTPUT_FILE local := t]> σ).
Proof.
  split; [apply OUTPUT_FILE_glob|]. split; [apply OUTPUT_FILE_not_pinned|].
  unfold NON_THUNDER_IMAGES. apply command_substitution_elem.
  { apply glob_jpg_nonempty, OUTPUT_FILE_glob. }
  apply list_elem_of_filter. split; [apply OUTPUT_FILE_not_pinned|].
  unfold ls_lines. apply (elem_of_concat_2 _ [OUTPUT_FILE local]); [left|].
  apply list_elem_of_fmap. exists (OUTPUT_FILE local).
  split; [by rewrite lines_of_plain by apply OUTPUT_FILE_plain|].
  apply ls_t_elem. rewrite lookup_insert_eq.
  split; [by eauto|apply OUTPUT_FILE_glob].
Qed.

End CameraNames.

(** ** More on the listing and the retention pass *)

Section RetentionMore.
Import Camera.






(** Without the hypothesis on the names the pass does reach a file that
    the glob does not match: with an old image named [notes x.jpg], the
    file [notes] of the camera directory is removed. *)
Example retention_reaches_unlisted :
  let σ : gmap string Z :=
    list_to_map [(IMG_DIR +:+ "/a1.jpg", 10); (IMG_DIR +:+ "/a2.jpg", 20);
                 (IMG_DIR +:+ "/notes x.jpg", 5); (IMG_DIR +:+ "/notes", 1)] in
  glob_jpg (IMG_DIR +:+ "/notes") = false ∧
  σ !! (IMG_DIR +:+ "/notes") = Some 1 ∧
  enforceRetention home 2 σ !! (IMG_DIR +:+ "/notes") = None.
Proof. repeat split; by vm_compute. Qed.



End RetentionMore.

(** ** Passes of the camera loop *)

Section CameraPasses.
Import Camera.

Lemma cycle_store cwd utc local shot (σ : gmap string Z) :
  store (cycle cwd utc local shot σ)
  = enforceRetention cwd 30 (capture_step utc local shot σ).2.
Proof. unfold cycle. by destruct (capture_step _ _ _ _). Qed.


(** The capture step keeps the names plain. *)
Lemma plain_names_capture_step utc local shot (σ : gmap string Z) :
  plain_names σ → plain_names (capture_step utc local shot σ).2.
Proof.
  intros Hplain. unfold capture_step.
  destruct (window_open _); [|done]. destruct shot as [t|]; [|done].
  simpl. apply plain_names_insert; [apply OUTPUT_FILE_plain|done].
Qed.

Lemma plain_names_cycle cwd utc local shot (σ : gmap string Z) :
  plain_names σ → plain_names (store (cycle cwd utc local shot σ)).
Proof.
  intros Hplain. rewrite cycle_store.
  by apply plain_names_enforceRetention, plain_names_capture_step.
Qed.




(** Without the hypothesis on the names the capture can be lost: with an
    old image whose name is the name of the capture, a blank and
    [x.jpg], the pass hands the path of the capture to [rm]. *)
Example newest_capture_lost :
  let σ : gmap string Z :=
    list_to_map
      (((λ n, (IMG_DIR +:+ "/img" +:+ Shell.two_digits n +:+ ".jpg",
               Z.of_nat n + 1)) <$> seq 0 29)
       ++ [(OUTPUT_FILE clock_1007 +:+ " x.jpg", 0)]) in
  store (cycle home clock_1007 clock_1007 (Some 60) σ)
    !! OUTPUT_FILE clock_1007 = None.
Proof. by vm_compute. Qed.

Lemma capture_iff_window_open_witness :
  Capture (OUTPUT_FILE clock_1022)
    ∈ events (cycle home clock_1007 clock_1022 None ∅)
  ↔ (3 ≤ hour clock_1007 < 18)%nat.
Proof.
  apply (capture_iff_window_open home clock_1007 clock_1022 None ∅).
  unfold valid_clock. simpl. lia.
Defined.

End CameraPasses.

(** ** The camera loop over many passes *)

Section CameraRuns.
Import Camera.

Lemma camera_run_cons cwd utc local shot rest (σ : gmap string Z) :
  camera_run cwd ((utc, local, shot) :: rest) σ =
    CycleResult
      (events (cycle cwd utc local shot σ)
         ++ events (camera_run cwd rest (store (cycle cwd utc local shot σ))))
      (store (camera_run cwd rest (store (cycle cwd utc local shot σ))))
      (loop_alive (camera_run cwd rest (store (cycle cwd utc local shot σ)))).
Proof.
  cbn [camera_run].
  replace (loop_alive (cycle cwd utc local shot σ)) with true; [done|].
  unfold cycle. by destruct (capture_step _ _ _ _).
Qed.


Lemma cycle_sleeps_once cwd utc local shot (σ : gmap string Z) :
  List.filter is_sleep (events (cycle cwd utc local shot σ)) = [Sleep 300].
Proof.
  unfold cycle, capture_step.
  destruct (window_open _); simpl; by destruct (_ <? _)%nat.
Qed.

Lemma plain_names_camera_run cwd passes (σ : gmap string Z) :
  plain_names σ → plain_names (store (camera_run cwd passes σ)).
Proof.
  revert σ. induction passes as [|[[utc local] shot] rest IH]; intros σ Hp;
    [done|].
  rewrite camera_run_cons. cbn [store]. by apply IH, plain_names_cycle.
Qed.





(** The camera loop never stops, and every pass sleeps once, for 300
    seconds, whether the gate was open or not and whatever the capture
    did. *)
Theorem camera_run_sleeps cwd passes (σ : gmap string Z) :
  loop_alive (camera_run cwd passes σ) = true ∧
  List.filter is_sleep (events (camera_run cwd passes σ))
    = replicate (length passes) (Sleep 300).
Proof.
  revert σ. induction passes as [|[[utc local] shot] rest IH]; intros σ;
    [done|].
  rewrite camera_run_cons. cbn [loop_alive events].
  destruct (IH (store (cycle cwd utc local shot σ))) as [Halive Hsleep].
  split; [done|].
  by rewrite List.filter_app, cycle_sleeps_once, Hsleep.
Qed.

End CameraRuns.

(** ** Installing the offline cache *)

Section InstallProperties.
Context {request : Type} `{Countable request} {response : Type}.
Variable network : request → option response.
Variable ok : response → bool.

(** Once the install handler has fetched every listed URL with an ok
    response, a fetch event for a listed URL is answered from the caches,
    with a response and without any request to the network, whatever the
    network would answer by then. *)
Theorem installed_urls_served_offline urlsToCache entries
    (later : request → option response)
    (caches : list (string * gmap request response)) u :
  addAll_entries network ok urlsToCache = Some entries →
  u ∈ urlsToCache →
  is_Some (answer (on_fetch later
                     (on_install network ok urlsToCache caches) u)) ∧
  contacted (on_fetch later (on_install network ok urlsToCache caches) u)
    = [].
Proof.
  intros Hall Hu.
  destruct (on_install_match_listed ok network urlsToCache entries caches u
              Hall Hu) as [r Hr].
  unfold on_fetch. rewrite Hr. simpl. eauto.
Qed.

(** The install handler changes the cached answer of no request outside
    its list; and when one of its fetches fails or is not ok, it changes
    the cached answer of no request at all. *)
Theorem install_keeps_other_answers urlsToCache
    (caches : list (string * gmap request response)) req :
  req ∉ urlsToCache ∨ addAll_entries network ok urlsToCache = None →
  caches_match (on_install network ok urlsToCache caches) req
    = caches_match caches req.
Proof. apply on_install_match_other. Qed.

End InstallProperties.

Lemma installed_urls_served_offline_witness :
  is_Some (answer (on_fetch (λ _ : string, None)
                     (on_install (λ u : string, Some (200%nat, u))
                        (λ r, bool_decide (r.1 = 200%nat))
                        urlsToCache []) "/")) ∧
  contacted (on_fetch (λ _ : string, None)
               (on_install (λ u : string, Some (200%nat, u))
                  (λ r, bool_decide (r.1 = 200%nat)) urlsToCache []) "/")
    = [].
Proof.
  apply (installed_urls_served_offline (λ u : string, Some (200%nat, u))
           (λ r, bool_decide (r.1 = 200%nat)) urlsToCache
           [("/", (200%nat, "/"));
            ("/assets/manifest.json", (200%nat, "/assets/manifest.json"))]).
  - reflexivity.
  - left.
Defined.

Lemma install_keeps_other_answers_witness :
  caches_match (on_install (λ _ : string, @None nat) (λ _, true)
                  urlsToCache []) "/"
  = caches_match ([] : list (string * gmap string nat)) "/".
Proof.
  apply (install_keeps_other_answers (λ _ : string, @None nat) (λ _, true)
           urlsToCache [] "/").
  right. reflexivity.
Defined.
(** ** Decoding the application server key *)

Section Base64.
Import Push.

Lemma list_ascii_app (a b : string) :
  list_ascii_of_string (a +:+ b)
  = list_ascii_of_string a ++ list_ascii_of_string b.
Proof.
  induction a as [|c a IH]; [done|].
  change (String c a +:+ b) with (String c (a +:+ b)).
  cbn [list_ascii_of_string]. by rewrite IH.
Qed.

Lemma list_ascii_replace a b s :
  list_ascii_of_string (replace_all a b s)
  = (λ c, if Ascii.eqb c a then b else c) <$> list_ascii_of_string s.
Proof.
  induction s as [|c s IH]; [done|].
  cbn [replace_all list_ascii_of_string]. by rewrite IH.
Qed.

Lemma list_ascii_repeat k :
  list_ascii_of_string (repeat_string "=" k) = replicate k "="%char.
Proof.
  induction k as [|k IH]; [done|].
  cbn [repeat_string]. by rewrite list_ascii_app, IH.
Qed.

Lemma list_ascii_length s :
  length (list_ascii_of_string s) = String.length s.
Proof. induction s as [|c s IH]; [done|]. simpl. by rewrite IH. Qed.

(** The text handed to [atob], character by character. *)
Lemma base64_text s k :
  list_ascii_of_string
    (replace_all "_" "/" (replace_all "-" "+" (s +:+ repeat_string "=" k)))
  = (standard_char <$> list_ascii_of_string s) ++ replicate k "="%char.
Proof.
  rewrite !list_ascii_replace, list_ascii_app, list_ascii_repeat.
  rewrite !fmap_app, <-list_fmap_compose. f_equal.
  induction k as [|k IH]; [done|]. cbn [replicate fmap list_fmap].
  by rewrite IH.
Qed.

Lemma url_char_standard_char c :
  url_char c = true →
  is_Some (sextet (standard_char c)) ∧ is_whitespace (standard_char c) = false ∧
  Ascii.eqb (standard_char c) "=" = false.
Proof.
  destruct c as [[] [] [] [] [] [] [] []]; intros Hc; vm_compute in Hc;
    try discriminate; vm_compute; eauto.
Qed.

Lemma sextet_range c v : sextet c = Some v → 0 ≤ v < 64.
Proof.
  destruct c as [[] [] [] [] [] [] [] []]; intros Hc; vm_compute in Hc;
    try discriminate; injection Hc as <-; lia.
Qed.

Lemma filter_all {A} (f : A → bool) (l : list A) :
  Forall (λ x, f x = true) l → List.filter f l = l.
Proof.
  induction 1 as [|x l Hx _ IH]; [done|]. simpl. by rewrite Hx, IH.
Qed.

Lemma rev_replicate {A} (x : A) k : rev (replicate k x) = replicate k x.
Proof.
  induction k as [|k IH]; [done|]. simpl. rewrite IH.
  clear IH. induction k as [|k IH]; [done|]. simpl. by rewrite IH.
Qed.

(** Without an equals sign in the text itself, the padding that was
    added is what [atob] drops again, up to two signs of it. *)
Lemma strip_padding_added (l : list ascii) k :
  Forall (λ c, Ascii.eqb c "=" = false) l →
  ((length l + k) mod 4 = 0)%nat → (k ≤ 3)%nat →
  strip_padding (l ++ replicate k "="%char)
  = l ++ replicate (k - 2) "="%char.
Proof.
  intros Hl Hlen Hk. unfold strip_padding.
  rewrite length_app, length_replicate, Hlen. simpl Nat.eqb. cbv iota.
  rewrite rev_app_distr, rev_replicate.
  assert (Hrev : ∀ c r, rev l = c :: r → Ascii.eqb c "=" = false).
  { intros c r Heq. rewrite Forall_forall in Hl. apply Hl.
    apply list_elem_of_In, in_rev. rewrite Heq. by left. }
  destruct k as [|[|[|[|k]]]]; [| | | |lia]; simpl.
  - rewrite app_nil_r. destruct (rev l) as [|c r] eqn:Heq; [done|].
    by rewrite (Hrev c r).
  - rewrite app_nil_r. destruct (rev l) as [|c r] eqn:Heq.
    + simpl. by rewrite <-(rev_involutive l), Heq.
    + rewrite (Hrev c r) by done. by rewrite <-Heq, rev_involutive.
  - by rewrite rev_involutive, app_nil_r.
  - replace ("="%char :: rev l) with (rev (l ++ ["="%char]))
      by (by rewrite rev_app_distr).
    by rewrite rev_involutive.
Qed.

Lemma decode_sextets_spec (l : list Z) :
  Forall (λ v, 0 ≤ v < 64) l → (length l mod 4 ≠ 1)%nat →
  length (decode_sextets l) = (3 * length l / 4)%nat ∧
  Forall (λ b, 0 ≤ b < 256) (decode_sextets l).
Proof.
  remember (length l) as n eqn:Hn. revert l Hn.
  induction (lt_wf n) as [n _ IH]. intros l Hn Hl Hmod.
  destruct l as [|a [|b [|c [|d rest]]]]; simpl in Hn; subst n.
  - done.
  - done.
  - apply Forall_cons in Hl as [Ha [Hb _]%Forall_cons].
    split; [done|]. cbn [decode_sextets].
    repeat constructor; Z.div_mod_to_equations; lia.
  - apply Forall_cons in Hl as [Ha [Hb [Hc _]%Forall_cons]%Forall_cons].
    split; [done|]. cbn [decode_sextets].
    repeat constructor; Z.div_mod_to_equations; lia.
  - apply Forall_cons in Hl
      as [Ha [Hb [Hc [Hd Hrest]%Forall_cons]%Forall_cons]%Forall_cons].
    destruct (IH (length rest) ltac:(lia) rest eq_refl Hrest) as [Hlen Hall].
    { replace (S (S (S (S (length rest))))) with (length rest + 1 * 4)%nat
        in Hmod by lia.
      by rewrite Nat.Div0.mod_add in Hmod. }
    cbn [decode_sextets length]. rewrite Hlen. split.
    + replace (3 * S (S (S (S (length rest)))))%nat
        with (3 * length rest + 3 * 4)%nat by lia.
      rewrite Nat.div_add by lia. lia.
    + repeat constructor; [Z.div_mod_to_equations; lia..|done].
Qed.

Lemma padding_length n :
  ((n + (4 - n mod 4) mod 4) mod 4 = 0)%nat ∧ ((4 - n mod 4) mod 4 ≤ 3)%nat ∧
  ((n mod 4 ≠ 1 → (4 - n mod 4) mod 4 - 2 = 0)
   ∧ (n mod 4 = 1 → (4 - n mod 4) mod 4 - 2 = 1))%nat.
Proof.
  rewrite Nat.Div0.add_mod, Nat.Div0.mod_mod.
  pose proof (Nat.mod_upper_bound n 4 ltac:(lia)) as Hr.
  destruct (n mod 4)%nat as [|[|[|[|r]]]]; [| | | |lia]; simpl; lia.
Qed.

Lemma url_text_data s :
  Forall (λ c, url_char c = true) (list_ascii_of_string s) →
  let l := standard_char <$> list_ascii_of_string s in
  let k := ((4 - String.length s mod 4) mod 4)%nat in
  strip_padding
    (List.filter (λ c, negb (is_whitespace c)) (l ++ replicate k "="%char))
  = l ++ replicate (k - 2) "="%char ∧
  is_Some (mapM sextet l) ∧ length l = String.length s.
Proof.
  intros Hs l k.
  assert (Hl : Forall (λ c, is_Some (sextet c) ∧ is_whitespace c = false ∧
                            Ascii.eqb c "=" = false) l).
  { subst l. apply Forall_fmap. eapply Forall_impl; [done|].
    intros c Hc. by apply url_char_standard_char. }
  assert (Hlen : length l = String.length s).
  { subst l. by rewrite length_fmap, list_ascii_length. }
  destruct (padding_length (String.length s)) as (Hmod & Hk & _).
  split; [|split; [|done]].
  - rewrite filter_all.
    + apply strip_padding_added; [|by rewrite Hlen|done].
      eapply Forall_impl; [done|]. by intros c (_ & _ & ?).
    + apply Forall_app. split.
      * eapply Forall_impl; [done|]. by intros c (_ & -> & _).
      * by apply Forall_replicate.
  - apply mapM_is_Some_2. eapply Forall_impl; [done|].
    by intros c (? & _ & _).
Qed.

(** For a text over the URL-safe alphabet whose length is not one more
    than a multiple of four, padded or not, the function returns an
    array: three bytes for every four characters, rounded down, each
    between 0 and 255. *)
Theorem urlBase64ToUint8Array_decodes s :
  Forall (λ c, url_char c = true) (list_ascii_of_string s) →
  (String.length s mod 4 ≠ 1)%nat →
  ∃ bytes, urlBase64ToUint8Array s = Some bytes ∧
    length bytes = (3 * String.length s / 4)%nat ∧
    Forall (λ b, 0 ≤ b < 256) bytes.
Proof.
  intros Hs Hmod.
  destruct (url_text_data s Hs) as (Hdata & [sx Hsx] & Hlen).
  destruct (padding_length (String.length s)) as (_ & _ & Hk & _).
  rewrite (Hk Hmod), app_nil_r in Hdata.
  unfold urlBase64ToUint8Array, atob. rewrite base64_text, Hdata, Hlen.
  destruct (Nat.eqb_spec (String.length s mod 4) 1) as [?|_]; [done|].
  rewrite Hsx. simpl.
  apply mapM_Some_1 in Hsx as Hall.
  assert (Hrange : Forall (λ v, 0 ≤ v < 64) sx).
  { clear -Hall. induction Hall as [|c v l sx Hc _ IH]; constructor;
      eauto using sextet_range. }
  apply Forall2_length in Hall.
  rewrite Hlen in Hall.
  destruct (decode_sextets_spec sx Hrange) as [Hl Hb]; [by rewrite <-Hall|].
  eexists. split; [done|]. rewrite length_fmap, Hl, <-Hall. split; [done|].
  apply Forall_fmap. eapply Forall_impl; [done|]. simpl. intros b Hb'.
  apply Z.mod_pos_bound. lia.
Qed.

Lemma urlBase64ToUint8Array_decodes_witness :
  ∃ bytes, urlBase64ToUint8Array "-_8" = Some bytes ∧
    length bytes = (3 * String.length "-_8" / 4)%nat ∧
    Forall (λ b, 0 ≤ b < 256) bytes.
Proof.
  apply (urlBase64ToUint8Array_decodes "-_8").
  - repeat (constructor; [reflexivity|]). constructor.
  - simpl. lia.
Defined.

(** A text over the URL-safe alphabet whose length is one more than a
    multiple of four is refused: [atob] throws, and so does the
    function. *)
Theorem urlBase64ToUint8Array_refuses s :
  Forall (λ c, url_char c = true) (list_ascii_of_string s) →
  (String.length s mod 4 = 1)%nat →
  urlBase64ToUint8Array s = None.
Proof.
  intros Hs Hmod.
  destruct (url_text_data s Hs) as (Hdata & _ & Hlen).
  destruct (padding_length (String.length s)) as (_ & _ & _ & Hk).
  rewrite (Hk Hmod) in Hdata.
  unfold urlBase64ToUint8Array, atob. rewrite base64_text, Hdata.
  rewrite length_app, Hlen. simpl length.
  replace ((String.length s + 1) mod 4 =? 1)%nat with false.
  2:{ symmetry. apply Nat.eqb_neq.
      rewrite Nat.Div0.add_mod, Hmod. by vm_compute. }
  replace (mapM sextet ((standard_char <$> list_ascii_of_string s)
                          ++ replicate 1 "="%char)) with (@None (list Z));
    [done|].
  symmetry. apply mapM_None_2, Exists_app. right. by left.
Qed.

Lemma urlBase64ToUint8Array_refuses_witness :
  urlBase64ToUint8Array "BJNBt" = None.
Proof.
  apply (urlBase64ToUint8Array_refuses "BJNBt").
  - repeat (constructor; [reflexivity|]). constructor.
  - reflexivity.
Defined.

End Base64.

(** ** Registering for push messages *)

Section Registration.
Import Push.

(** The key of the script decodes: 65 bytes. *)
Lemma VAPID_key :
  ∃ key, urlBase64ToUint8Array VAPID_PUBLIC_KEY = Some key ∧
         length key = 65%nat.
Proof. eexists. split; [by vm_compute|reflexivity]. Qed.

Lemma registerAndSubscribePush_granted b key :
  has_serviceWorker b = true → has_Notification b = true →
  register_resolves b = true → permission b = Some "granted" →
  has_PushManager b = true →
  urlBase64ToUint8Array VAPID_PUBLIC_KEY = Some key →
  registerAndSubscribePush b =
    Register "/assets/sw.js" :: RequestPermission :: Subscribe key ::
    match subscription b with
    | None => [ConsoleError]
    | Some sub =>
        Post "/store_subscription" sub ::
        match post_status b with
        | None => [ConsoleError]
        | Some _ => [Alert "Subscribed to push notifications!"]
        end
    end.
Proof.
  intros Hsw Hnt Hrg Hperm Hpm Hkey. unfold registerAndSubscribePush.
  by rewrite Hsw, Hnt, Hrg, Hperm, Hpm, Hkey.
Qed.

Lemma registerAndSubscribePush_stopped b :
  ¬ (has_serviceWorker b = true ∧ has_Notification b = true ∧
     register_resolves b = true ∧ permission b = Some "granted" ∧
     has_PushManager b = true) →
  ∀ a, a ∈ registerAndSubscribePush b →
    match a with
    | Post _ _ | Subscribe _ => False
    | Alert msg => msg = "Notifications not granted!"
    | _ => True
    end.
Proof.
  intros Hnot a. unfold registerAndSubscribePush.
  destruct (has_serviceWorker b); cbn [negb].
  2:{ intros ->%list_elem_of_singleton. done. }
  destruct (has_Notification b); cbn [negb].
  2:{ intros ->%list_elem_of_singleton. done. }
  intros [->|Ha]%elem_of_cons; [done|]. revert Ha.
  destruct (register_resolves b); cbn [negb].
  2:{ intros ->%list_elem_of_singleton. done. }
  intros [->|Ha]%elem_of_cons; [done|]. revert Ha.
  destruct (permission b) as [p|].
  2:{ intros ->%list_elem_of_singleton. done. }
  destruct (String.eqb_spec p "granted") as [->|Hp]; cbn [negb].
  2:{ intros ->%list_elem_of_singleton. done. }
  destruct (has_PushManager b); cbn [negb].
  - destruct Hnot. done.
  - intros ->%list_elem_of_singleton. done.
Qed.

(** The subscription goes to the server exactly when the browser has
    service workers, notifications and a push manager, the registration
    of the worker succeeds, the user grants the permission and the
    subscription succeeds; what is posted is that subscription. *)
Theorem subscription_posted_iff b body :
  Post "/store_subscription" body ∈ registerAndSubscribePush b ↔
  has_serviceWorker b = true ∧ has_Notification b = true ∧
  register_resolves b = true ∧ permission b = Some "granted" ∧
  has_PushManager b = true ∧ subscription b = Some body.
Proof.
  destruct VAPID_key as (key & Hkey & _). split.
  - intros Hin.
    destruct (decide (has_serviceWorker b = true ∧ has_Notification b = true ∧
      register_resolves b = true ∧ permission b = Some "granted" ∧
      has_PushManager b = true)) as [(Hsw & Hnt & Hrg & Hperm & Hpm)|Hnot].
    + rewrite (registerAndSubscribePush_granted b key) in Hin by done.
      repeat split; try done.
      repeat (apply elem_of_cons in Hin as [?|Hin]; [done|]).
      destruct (subscription b) as [sub|].
      * apply elem_of_cons in Hin as [[= ->]|Hin]; [done|].
        destruct (post_status b);
          by apply list_elem_of_singleton in Hin.
      * by apply list_elem_of_singleton in Hin.
    + by pose proof (registerAndSubscribePush_stopped b Hnot _ Hin).
  - intros (Hsw & Hnt & Hrg & Hperm & Hpm & Hsub).
    rewrite (registerAndSubscribePush_granted b key) by done.
    rewrite Hsub. do 3 right. left.
Qed.

(** The script announces success exactly when the subscription was
    posted and the request came back, with whatever status: the response
    of the server is not looked at. *)
Theorem success_alert_iff b :
  Alert "Subscribed to push notifications!" ∈ registerAndSubscribePush b ↔
  has_serviceWorker b = true ∧ has_Notification b = true ∧
  register_resolves b = true ∧ permission b = Some "granted" ∧
  has_PushManager b = true ∧ is_Some (subscription b) ∧
  is_Some (post_status b).
Proof.
  destruct VAPID_key as (key & Hkey & _). split.
  - intros Hin.
    destruct (decide (has_serviceWorker b = true ∧ has_Notification b = true ∧
      register_resolves b = true ∧ permission b = Some "granted" ∧
      has_PushManager b = true)) as [(Hsw & Hnt & Hrg & Hperm & Hpm)|Hnot].
    + rewrite (registerAndSubscribePush_granted b key) in Hin by done.
      repeat split; try done;
        repeat (apply elem_of_cons in Hin as [?|Hin]; [done|]);
        destruct (subscription b) as [sub|];
        try (by apply list_elem_of_singleton in Hin);
        try (apply elem_of_cons in Hin as [?|Hin]; [done|]);
        destruct (post_status b);
        try (by apply list_elem_of_singleton in Hin); eauto.
    + by pose proof (registerAndSubscribePush_stopped b Hnot _ Hin).
  - intros (Hsw & Hnt & Hrg & Hperm & Hpm & [sub Hsub] & [st Hst]).
    rewrite (registerAndSubscribePush_granted b key) by done.
    rewrite Hsub, Hst. do 4 right. left.
Qed.

End Registration.

